(** * score_temp: scoring of FISH probes under a temperature condition

    Shallow embedding of [lib/score_temp.py] and proofs about it.

    Conventions of the embedding:
    - Python [str] is [string]; the text handled is ASCII.
    - Python [float] is modelled by exact rationals [Q]; rounding is not
      modelled, the order and the arithmetic expressions are.
    - A row (a Python dict from field name to text) is a [gmap string string];
      the aggregation dict, whose iteration order drives the probe loop, is an
      insertion-ordered association list.
    - Row dicts are objects shared between the parsed list and the aggregation
      groups: they live in a store and are referred to by their index.
    - Exceptions and [sys.exit] are values of [exn]; the driver threads a
      [world] (standard output and the optional per-probe output stream).
    - A file is the list of its lines; the output path is taken to differ
      from the two input paths and to be writable.
    - The functions of [oligo_melting.lib.meltlib] and the spellings of
      [float] beyond plain decimals are parameters ([externals]).
    - Lines 134-136 only rebind the label [fa_mval_s], which nothing reads
      afterwards; they have no counterpart here. *)

From Stdlib Require Import Ascii String QArith Lqa.
From stdpp Require Import base option list gmap strings.

Local Open Scope string_scope.
Local Open Scope list_scope.

(** ** Python string operations *)

Module PyStr.

(** [str.isspace] on ASCII: TAB, LF, VT, FF, CR, FS, GS, RS, US and space. *)
Definition is_space (c : ascii) : bool :=
  let n := nat_of_ascii c in
  ((9 <=? n)%nat && (n <=? 13)%nat) || ((28 <=? n)%nat && (n <=? 32)%nat).

Definition is_empty (s : string) : bool :=
  match s with EmptyString => true | String _ _ => false end.

Fixpoint lstrip (s : string) : string :=
  match s with
  | EmptyString => EmptyString
  | String c s' => if is_space c then lstrip s' else s
  end.

Fixpoint rstrip (s : string) : string :=
  match s with
  | EmptyString => EmptyString
  | String c s' =>
      let r := rstrip s' in
      if is_space c && is_empty r then EmptyString else String c r
  end.

(** [s.strip()] *)
Definition strip (s : string) : string := rstrip (lstrip s).

(** Puts a character in front of the token under construction. *)
Definition cons_head (c : ascii) (l : list string) : list string :=
  match l with
  | [] => [String c EmptyString]
  | h :: t => String c h :: t
  end.

Definition starts_token (s : string) : bool :=
  match s with
  | EmptyString => false
  | String c _ => negb (is_space c)
  end.

(** [s.split()]: the maximal runs of non-whitespace characters. *)
Fixpoint split_ws (s : string) : list string :=
  match s with
  | EmptyString => []
  | String c s' =>
      if is_space c then split_ws s'
      else if starts_token s' then cons_head c (split_ws s')
      else String c EmptyString :: split_ws s'
  end.

(** [s.startswith(p)] *)
Fixpoint starts_with (p s : string) : bool :=
  match p, s with
  | EmptyString, _ => true
  | String a p', String b s' => Ascii.eqb a b && starts_with p' s'
  | String _ _, EmptyString => false
  end.

(** [sep in s] *)
Fixpoint contains (sep s : string) : bool :=
  starts_with sep s ||
  match s with
  | EmptyString => false
  | String _ s' => contains sep s'
  end.

(** The scan of [s.split(sep)] for a non-empty [sep]; [skip] counts the
    characters of a separator occurrence still to be passed over. *)
Fixpoint split_go (sep : string) (skip : nat) (s : string) : list string :=
  match s with
  | EmptyString => [EmptyString]
  | String c s' =>
      match skip with
      | S n => split_go sep n s'
      | O =>
          if starts_with sep s
          then EmptyString :: split_go sep (String.length sep - 1) s'
          else cons_head c (split_go sep 0 s')
      end
  end.

(** [s.split(sep)]; [None] is the ValueError raised for an empty separator. *)
Definition split (sep s : string) : option (list string) :=
  if is_empty sep then None else Some (split_go sep 0 s).

(** [s.upper()] on ASCII. *)
Definition upper_char (c : ascii) : ascii :=
  let n := nat_of_ascii c in
  if (97 <=? n)%nat && (n <=? 122)%nat then ascii_of_nat (n - 32) else c.

Fixpoint upper (s : string) : string :=
  match s with
  | EmptyString => EmptyString
  | String c s' => String (upper_char c) (upper s')
  end.

(** [s.count(c)] for a one-character pattern. *)
Fixpoint count (c : ascii) (s : string) : nat :=
  match s with
  | EmptyString => 0
  | String d s' => (if Ascii.eqb c d then 1 else 0) + count c s'
  end.

End PyStr.

(** ** The fragment of Python's [re] used by the m-value patterns

    A pattern is a sequence of atoms over character classes; the matcher is
    the greedy backtracking one of [re], and it reports what each atom took. *)

Module Re.

Inductive atom :=
| One (cls : ascii -> bool)      (* [c]  *)
| Opt (cls : ascii -> bool)      (* [c]? *)
| Star (cls : ascii -> bool).    (* [c]* *)

Definition push (c : ascii) (r : option (list string)) : option (list string) :=
  match r with
  | Some (p :: ps) => Some (String c p :: ps)
  | _ => None
  end.

Definition skip (r : option (list string)) : option (list string) :=
  match r with
  | Some ps => Some (EmptyString :: ps)
  | None => None
  end.

(** Greedy star: take one more character when possible, and give it back
    when the rest of the pattern fails after it. *)
Fixpoint star (cls : ascii -> bool) (k : string -> option (list string))
    (s : string) : option (list string) :=
  match s with
  | String c s' =>
      if cls c then
        match star cls k s' with
        | Some r => push c (Some r)
        | None => skip (k s)
        end
      else skip (k s)
  | EmptyString => skip (k s)
  end.

(** [match_at p s]: the pieces taken by the atoms of [p] when [p] matches a
    prefix of [s]. *)
Fixpoint match_at (p : list atom) : string -> option (list string) :=
  match p with
  | [] => fun _ => Some []
  | a :: p' =>
      let k := match_at p' in
      match a with
      | One cls => fun s =>
          match s with
          | String c s' => if cls c then push c (skip (k s')) else None
          | EmptyString => None
          end
      | Opt cls => fun s =>
          match s with
          | String c s' =>
              if cls c then
                match k s' with
                | Some r => push c (skip (Some r))
                | None => skip (k s)
                end
              else skip (k s)
          | EmptyString => skip (k s)
          end
      | Star cls => star cls k
      end
  end.

(** [re.search(p, s)]: the match at the leftmost position that has one. *)
Fixpoint search (p : list atom) (s : string) : option (list string) :=
  match match_at p s with
  | Some r => Some r
  | None =>
      match s with
      | String _ s' => search p s'
      | EmptyString => None
      end
  end.

Definition concat (l : list string) : string :=
  foldr String.append EmptyString l.

End Re.

(** ** Exceptions, results and the state of the run *)

Inductive exn :=
| SystemExit (msg : string)     (* sys.exit(msg) *)
| KeyError (key : string)
| ValueError
| IndexError
| ZeroDivisionError
| OtherError (name : string)    (* anything else the melting library raises *)
| BadRef.                       (* a reference outside the store: not reachable *)

Inductive result (A : Type) :=
| Ok (a : A)
| Raise (e : exn).
Arguments Ok {A} a.
Arguments Raise {A} e.

Definition rbind {A B} (r : result A) (f : A -> result B) : result B :=
  match r with
  | Ok a => f a
  | Raise e => Raise e
  end.

Definition of_option {A} (e : exn) (o : option A) : result A :=
  match o with
  | Some a => Ok a
  | None => Raise e
  end.

(** What [print] received. *)
Inductive printed :=
| PStr (s : string)
| PNum (q : Q).

(** What [fout.write] received; [WScore name score] stands for the text
    ["%s\t%f\n" % (name, score)]. *)
Inductive chunk :=
| WText (s : string)
| WScore (name : string) (score : Q).

Inductive stream :=
| NotOpened
| Opened (written : list chunk)
| Closed (written : list chunk).

Record world := World { stdout : list printed; fout : stream }.

Definition written (w : world) : list chunk :=
  match fout w with
  | NotOpened => []
  | Opened l => l
  | Closed l => l
  end.

(** Computations of the driver: they read and update the world, and end with
    a value or with an exception; the world reached is kept in both cases. *)
Definition M (A : Type) : Type := world -> result A * world.

Definition ret {A} (a : A) : M A := fun w => (Ok a, w).

Definition bind {A B} (m : M A) (f : A -> M B) : M B :=
  fun w =>
    match m w with
    | (Ok a, w') => f a w'
    | (Raise e, w') => (Raise e, w')
    end.

Definition lift {A} (r : result A) : M A := fun w => (r, w).

Definition raise {A} (e : exn) : M A := lift (Raise e).

Declare Scope run_scope.
Delimit Scope run_scope with run.
Notation "x <- m ;; k" := (bind m (fun x => k))
  (at level 100, m at next level, right associativity) : run_scope.
Notation "m ;; k" := (bind m (fun _ => k))
  (at level 100, right associativity) : run_scope.
Notation "x <~ r ;; k" := (rbind r (fun x => k))
  (at level 100, r at next level, right associativity) : run_scope.

Definition print (p : printed) : M unit :=
  fun w => (Ok tt, World (stdout w ++ [p]) (fout w)).

Definition fopen : M unit :=
  fun w => (Ok tt, World (stdout w) (Opened [])).

Definition fwrite (c : chunk) : M unit :=
  fun w =>
    match fout w with
    | Opened l => (Ok tt, World (stdout w) (Opened (l ++ [c])))
    | _ => (Raise ValueError, w)
    end.

Definition fclose : M unit :=
  fun w => (Ok tt, World (stdout w) (Closed (written w))).

Definition world0 : world := World [] NotOpened.

(** ** [float(s)]

    On a text made of signs, digits and dots only, [float] accepts exactly
    an optional sign followed by digits with at most one dot and at least one
    digit, and reads it in base ten.  Every other spelling (exponents, inf,
    nan, surrounding blanks, underscores) is left to [special]. *)

Module PyFloat.

Definition is_sign (c : ascii) : bool :=
  Ascii.eqb c "+" || Ascii.eqb c "-".

Definition is_digit (c : ascii) : bool :=
  let n := nat_of_ascii c in (48 <=? n)%nat && (n <=? 57)%nat.

Definition is_dot (c : ascii) : bool := Ascii.eqb c ".".

Definition is_num (c : ascii) : bool := is_digit c || is_dot c.

Fixpoint all_chars (p : ascii -> bool) (s : string) : bool :=
  match s with
  | EmptyString => true
  | String c s' => p c && all_chars p s'
  end.

Definition plain (s : string) : bool :=
  all_chars (fun c => is_sign c || is_num c) s.

(** Value of a run of digits read after [acc]. *)
Fixpoint digits (acc : Z) (s : string) : option Z :=
  match s with
  | EmptyString => Some acc
  | String c s' =>
      if is_digit c
      then digits (10 * acc + Z.of_nat (nat_of_ascii c - 48)) s'
      else None
  end.

(** The text before the first dot, and the text after it if there is one. *)
Fixpoint cut_dot (s : string) : string * option string :=
  match s with
  | EmptyString => (EmptyString, None)
  | String c s' =>
      if is_dot c then (EmptyString, Some s')
      else let '(i, f) := cut_dot s' in (String c i, f)
  end.

Definition unsigned (s : string) : option Q :=
  let '(i, f) := cut_dot s in
  let f := default EmptyString f in
  if PyStr.is_empty (String.append i f) then None
  else
    match digits 0 (String.append i f) with
    | Some n => Some (Qmake n (Z.to_pos (10 ^ Z.of_nat (String.length f))))
    | None => None
    end.

Definition decimal (s : string) : option Q :=
  match s with
  | EmptyString => None
  | String c s' =>
      if Ascii.eqb c "-" then Qopp <$> unsigned s'
      else if Ascii.eqb c "+" then unsigned s'
      else unsigned s
  end.

(** [float(s)]; a rejected text raises ValueError. *)
Definition float (special : string -> option Q) (s : string) : result Q :=
  of_option ValueError (if plain s then decimal s else special s).

End PyFloat.

(** ** The condition and the external melting library *)

Inductive duplex := DNA_DNA | RNA_RNA | RNA_DNA | DNA_RNA.

Inductive fa_mode_t := mcconaughy | wright.

(** The command line after [argparse]. *)
Record args := Args {
  target_tsv : string;
  second_tsv : string;
  arg_t : Q;
  arg_d : duplex;
  arg_o : Q;
  naconc : Q;
  mgconc : Q;
  faconc : Q;
  arg_fa_mode : fa_mode_t;
  fa_mvalue : string;
  out_single : option string
}.

(** A melting curve: samples (temperature, fraction). *)
Abbreviation curve := (list (Q * Q)).

(** What the script takes from outside: the spellings of [float] beyond
    plain decimals, and the functions of [oligo_melting.lib.meltlib], in the
    argument order of their calls.  Each of them may raise. *)
Record externals := Externals {
  float_special : string -> option Q;
  duMelt_ion_adj : Q -> Q -> Q -> Q -> Q -> result Q;
  duMelt_fa_adj :
    Q -> Q -> Q -> string -> Q -> Q -> fa_mode_t -> (Q -> result Q) ->
    duplex -> Q -> result Q;
  duMelt_curve :
    string -> Q -> Q -> Q -> Q -> fa_mode_t -> (Q -> result Q) -> Q ->
    Q -> Q -> Q -> Q -> Q -> duplex -> result curve;
  ssMelt_fa_adj : Q -> Q -> Q -> result Q;
  ssMelt_curve : Q -> Q -> Q -> Q -> Q -> Q -> result curve
}.

Definition float (X : externals) : string -> result Q :=
  PyFloat.float (float_special X).

(** ** The formamide m-value (lines 110-132) *)

Definition is_L (c : ascii) : bool := Ascii.eqb c "L".

(** The two patterns of [mregex]: an optional sign, digits and dots, the
    letter L, a sign, digits and dots; and an optional sign, digits and dots. *)
Definition mregex0 : list Re.atom :=
  [Re.Opt PyFloat.is_sign; Re.Star PyFloat.is_num; Re.One is_L;
   Re.One PyFloat.is_sign; Re.Star PyFloat.is_num].

Definition mregex1 : list Re.atom :=
  [Re.Opt PyFloat.is_sign; Re.Star PyFloat.is_num].

(** [msearch.groups()] for the first pattern: the whole match, the text
    before the L and the text after it. *)
Definition groups0 (pieces : list string) : string * string * string :=
  (Re.concat pieces, Re.concat (take 2 pieces), Re.concat (drop 3 pieces)).

(** [msearch.groups()[0]] for the second pattern. *)
Definition groups1 (pieces : list string) : string := Re.concat pieces.

(** The text kept by the lambda bound to [mvalue]. *)
Inductive mvalue_t :=
| Linear (x y : string)      (* float(mgroups[1]) * x + float(mgroups[2]) *)
| Constant (x : string).     (* float(mgroup) *)

Definition parse_linear (fa_mval_s : string) : option mvalue_t :=
  match Re.search mregex0 fa_mval_s with
  | Some pieces =>
      let '(g0, g1, g2) := groups0 pieces in
      if String.eqb fa_mval_s g0 then Some (Linear g1 g2) else None
  | None => None
  end.

Definition parse_constant (fa_mval_s : string) : option mvalue_t :=
  match Re.search mregex1 fa_mval_s with
  | Some pieces =>
      let mgroup := groups1 pieces in
      if String.eqb fa_mval_s mgroup then Some (Constant mgroup) else None
  | None => None
  end.

(** [None] when [parsed_mval] is still False at line 131. *)
Definition parse_mvalue (fa_mval_s : string) : option mvalue_t :=
  match parse_linear fa_mval_s with
  | Some m => Some m
  | None => parse_constant fa_mval_s
  end.

Definition mvalue_error : string :=
  "!!!ERROR! Unexpected formamide m-value format Check help page.".

(** Calling [mvalue]: the conversions to float happen at each call. *)
Definition mvalue (X : externals) (m : mvalue_t) (x : Q) : result Q :=
  match m with
  | Linear a b =>
      rbind (float X a) (fun fa =>
      rbind (float X b) (fun fb => Ok (fa * x + fb)%Q))
  | Constant a => float X a
  end.

(** ** The table reader (lines 140-187) *)

Abbreviation row := (gmap string string).

(** The file system seen by the script: the lines of each existing file. *)
Definition files := string -> option (list string).

Definition tab : string := String (ascii_of_nat 9) EmptyString.

(** [rowd[first_row[i]] = row[i]] for [i] in [range(len(first_row))]. *)
Fixpoint fill_row (rowd : row) (first_row vals : list string) : row :=
  match first_row, vals with
  | f :: first_row', v :: vals' => fill_row (<[f := v]> rowd) first_row' vals'
  | _, _ => rowd
  end.

Definition column_error (path : string) : string :=
  String.append "ERROR! Variable column number found in " path.

(** The loop over the lines: the rows stored, plus what was printed. *)
Fixpoint read_rows (path : string) (first_row : list string) (out : list row)
    (lines : list string) : list row * list printed :=
  match lines with
  | [] => (out, [])
  | line :: rest =>
      if (length first_row =? 0)%nat
      then read_rows path (PyStr.split_go tab 0 (PyStr.strip line)) out rest
      else
        let toks := PyStr.split_ws (PyStr.strip line) in
        if negb (length toks =? length first_row)%nat
        then ([], [PStr (column_error path)])
        else read_rows path first_row (out ++ [fill_row ∅ first_row toks]) rest
  end.

Definition read_tsv (fs : files) (path : string) : list row * list printed :=
  match fs path with
  | None => ([], [])
  | Some lines => read_rows path [] [] lines
  end.

(** ** The table aggregator (lines 189-223) *)

(** Row objects by address. *)
Abbreviation store := (list row).

(** [outd]: keys in insertion order, each with the list of row references. *)
Abbreviation groups := (list (string * list nat)).

Fixpoint dict_get {A} (k : string) (d : list (string * A)) : option A :=
  match d with
  | [] => None
  | (k', v) :: d' => if String.eqb k k' then Some v else dict_get k d'
  end.

Definition dict_keys {A} (d : list (string * A)) : list string := d.*1.

(** [outd[key].append(d)] when [key] is in [outd], [outd[key] = [d]] otherwise. *)
Fixpoint dict_add (key : string) (d : nat) (outd : groups) : groups :=
  match outd with
  | [] => [(key, [d])]
  | (k', g) :: outd' =>
      if String.eqb key k' then (k', g ++ [d]) :: outd'
      else (k', g) :: dict_add key d outd'
  end.

Definition key_error (k : string) : string :=
  String.append "ERROR! Not all the items contain the aggregation key '"
    (String.append k "'").

(** [d[k].split(delim)[0]] *)
Definition truncate (delim v : string) : string :=
  default EmptyString (head (PyStr.split_go delim 0 v)).

(** One turn of the loop of [reparse_tsv_list] on the row object [d]. *)
Definition reparse_step (k delim : string) (st : store * groups) (d : nat)
    : result (store * groups) :=
  let '(sigma, outd) := st in
  match sigma !! d with
  | None => Raise BadRef
  | Some r =>
      match r !! k with
      | None => Raise (SystemExit (key_error k))
      | Some v =>
          if PyStr.contains delim v then
            if PyStr.is_empty delim then Raise ValueError
            else
              let v' := truncate delim v in
              Ok (<[d := <[k := v']> r]> sigma, dict_add v' d outd)
          else Ok (sigma, dict_add v d outd)
      end
  end.

Fixpoint reparse_loop (k delim : string) (st : store * groups) (l : list nat)
    : result (store * groups) :=
  match l with
  | [] => Ok st
  | d :: l' => rbind (reparse_step k delim st d) (fun st' => reparse_loop k delim st' l')
  end.

(** [reparse_tsv_list(l, k, delim)] in the store [sigma]: the store it
    leaves and the dict it returns. *)
Definition reparse_tsv_list (sigma : store) (l : list nat) (k delim : string)
    : result (store * groups) :=
  reparse_loop k delim (sigma, []) l.

(** A table as the driver holds it: the row objects and their grouping. *)
Abbreviation table := (store * groups)%type.

(** [reparse_tsv_list(read_tsv(path), 'oligo_name', ',')] *)
Definition load_table (fs : files) (path : string) : M table :=
  fun w =>
    let '(rows, diag) := read_tsv fs path in
    (reparse_tsv_list rows (seq 0 (length rows)) "oligo_name" ",",
     World (stdout w ++ diag) (fout w)).

(** ** The probe loop (lines 231-285) *)

(** [tbl[oligo_name][0][field]] *)
Definition field_of (tbl : table) (oligo_name field : string) : result string :=
  let '(sigma, outd) := tbl in
  rbind (of_option (KeyError oligo_name) (dict_get oligo_name outd)) (fun g =>
  rbind (of_option IndexError (head g)) (fun d =>
  rbind (of_option BadRef (sigma !! d)) (fun r =>
  of_option (KeyError field) (r !! field)))).

(** [c[0][1]] *)
Definition sample0 (c : curve) : result Q :=
  rbind (of_option IndexError (head c)) (fun p => Ok (snd p)).

Definition Qnat (n : nat) : Q := inject_Z (Z.of_nat n).

(** [a / b] on floats. *)
Definition fdiv (a b : Q) : result Q :=
  if Qeq_bool b 0 then Raise ZeroDivisionError else Ok (a / b)%Q.

Definition kelvin : Q := 273.15%Q.
Definition step : Q := 0.1%Q.

(** The locals of one turn of the loop that the scoring block sets. *)
Record locals := Locals {
  unfold : Q;
  folded : Q;
  dissoc : Q;
  hybrid : Q;
  good : Q;
  bad : Q;
  score : Q
}.

(** Lines 267-277. *)
Definition combine (sf tf : Q) : locals :=
  let unfold := sf in
  let folded := (1 - unfold)%Q in
  let dissoc := tf in
  let hybrid := (1 - dissoc)%Q in
  let good := (unfold * hybrid)%Q in
  let bad := ((folded + dissoc) - folded * dissoc)%Q in
  let score := good in
  Locals unfold folded dissoc hybrid good bad score.

(** Lines 238-252: the dissociated fraction [tf] of the duplex. *)
Definition target_fraction (X : externals) (a : args) (mv : Q -> result Q)
    (t : table) (oligo_name : string) : result Q :=
  (s_tdh <~ field_of t oligo_name "dH" ;;
   tdh <~ float X s_tdh ;;
   s_tds <~ field_of t oligo_name "dS" ;;
   tds <~ float X s_tds ;;
   s_seq <~ field_of t oligo_name "Seq" ;;
   let seq := PyStr.upper s_seq in
   fgc <~ fdiv (Qnat (PyStr.count "G" seq + PyStr.count "C" seq))
               (Qnat (String.length seq) + 0) ;;
   let ttemp := (arg_t a + kelvin)%Q in
   ttemp <~ duMelt_ion_adj X ttemp 1 0 fgc (naconc a) ;;
   ttemp <~ duMelt_fa_adj X ttemp tdh tds seq (arg_o a) 0 (arg_fa_mode a) mv
              (arg_d a) (faconc a) ;;
   tf <~ duMelt_curve X seq (arg_o a) (naconc a) (mgconc a) (faconc a)
           (arg_fa_mode a) mv fgc tdh tds ttemp 0 step (arg_d a) ;;
   sample0 tf)%run.

(** Lines 255-263: the unfolded fraction [sf] of the single strand. *)
Definition second_fraction (X : externals) (a : args) (s : table)
    (oligo_name : string) : result Q :=
  (s_sdh <~ field_of s oligo_name "dH" ;;
   sdh <~ float X s_sdh ;;
   s_sds <~ field_of s oligo_name "dS" ;;
   sds <~ float X s_sds ;;
   let sds := (sds / 1000)%Q in
   stemp <~ ssMelt_fa_adj X (arg_t a + kelvin) 0 (faconc a) ;;
   sf <~ ssMelt_curve X sdh sds stemp (faconc a) 0 step ;;
   sample0 sf)%run.

(** Lines 238-277: the locals of the turn for [oligo_name]. *)
Definition probe (X : externals) (a : args) (mv : Q -> result Q)
    (t s : table) (oligo_name : string) : result locals :=
  (tf <~ target_fraction X a mv t oligo_name ;;
   sf <~ second_fraction X a s oligo_name ;;
   Ok (combine sf tf))%run.

Definition doSingleOut (a : args) : bool :=
  match out_single a with Some _ => true | None => false end.

(** Lines 284-285. *)
Definition update_min (score min_score : Q) : Q :=
  if Qle_bool score min_score then score else min_score.

(** One turn of the loop: the new [min_score]. *)
Definition turn (X : externals) (a : args) (mv : Q -> result Q) (t s : table)
    (min_score : Q) (oligo_name : string) : M Q :=
  (v <- lift (probe X a mv t s oligo_name) ;;
   (if doSingleOut a then fwrite (WScore oligo_name (score v)) else ret tt) ;;
   ret (update_min (score v) min_score))%run.

(** [for oligo_name in t.keys(): ...] *)
Fixpoint score_loop (X : externals) (a : args) (mv : Q -> result Q)
    (t s : table) (min_score : Q) (keys : list string) : M Q :=
  match keys with
  | [] => ret min_score
  | oligo_name :: keys' =>
      (m <- turn X a mv t s min_score oligo_name ;;
       score_loop X a mv t s m keys')%run
  end.

(** ** The script (lines 100-132 and 227-292) *)

Definition header : string :=
  String.append "name" (String.append tab (String.append "score" (String (ascii_of_nat 10) EmptyString))).

(** Lines 227-292: the run once [mvalue] is bound. *)
Definition scoring (X : externals) (a : args) (fs : files) (m : mvalue_t)
    : M unit :=
  (let mv := mvalue X m in
   t <- load_table fs (target_tsv a) ;;
   s <- load_table fs (second_tsv a) ;;
   let min_score := 1%Q in
   min_score <- score_loop X a mv t s min_score (dict_keys (snd t)) ;;
   (if doSingleOut a then fclose else ret tt) ;;
   print (PNum min_score))%run.

(** Lines 104-106. *)
Definition prepare (a : args) : M unit :=
  (if doSingleOut a then (fopen ;; fwrite (WText header)) else ret tt)%run.

(** Lines 110-132. *)
Definition check_mvalue (a : args) : M mvalue_t :=
  lift (of_option (SystemExit mvalue_error) (parse_mvalue (fa_mvalue a))).

Definition main (X : externals) (a : args) (fs : files) : M unit :=
  (prepare a ;;
   m <- check_mvalue a ;;
   scoring X a fs m)%run.

(** The run from the initial world: how it ends and the world it leaves. *)
Definition run (X : externals) (a : args) (fs : files) : result unit * world :=
  main X a fs world0.

(** ** Notions used by the statements *)

(** *** Shapes of m-value texts *)

Definition nums (s : string) : Prop := PyFloat.all_chars PyFloat.is_num s = true.

Definition sign_text (s : string) : Prop := s = "" \/ s = "+" \/ s = "-".

(** An optional sign followed by digits and dots. *)
Definition constant_shape (s : string) : Prop :=
  exists sg body, s = String.append sg body /\ sign_text sg /\ nums body.

(** A sign followed by digits and dots. *)
Definition signed_shape (s : string) : Prop :=
  exists c body, s = String c body /\ PyFloat.is_sign c = true /\ nums body.

(** [x], the letter L, [y]. *)
Definition linear_shape (s : string) : Prop :=
  exists x y, s = String.append x (String "L" y) /\
              constant_shape x /\ signed_shape y.


(** *** Longest prefix of a class, and what follows it *)

Fixpoint take_while (p : ascii -> bool) (s : string) : string :=
  match s with
  | EmptyString => EmptyString
  | String c s' => if p c then String c (take_while p s') else EmptyString
  end.

Fixpoint drop_while (p : ascii -> bool) (s : string) : string :=
  match s with
  | EmptyString => EmptyString
  | String c s' => if p c then drop_while p s' else s
  end.

(** What an atom may take. *)
Definition atom_ok (a : Re.atom) (piece : string) : Prop :=
  match a with
  | Re.One cls => exists c, piece = String c "" /\ cls c = true
  | Re.Opt cls => piece = "" \/ exists c, piece = String c "" /\ cls c = true
  | Re.Star cls => PyFloat.all_chars cls piece = true
  end.

(** *** Tables *)

(** The field names: the first line, stripped and split on TAB. *)
Definition header_of (first : string) : list string :=
  PyStr.split_go tab 0 (PyStr.strip first).

(** The tokens of a later line: stripped and split on blanks. *)
Definition tokens (line : string) : list string :=
  PyStr.split_ws (PyStr.strip line).

Definition fits (first_row : list string) (line : string) : bool :=
  (length (tokens line) =? length first_row)%nat.

(** The text before the first occurrence of [delim]. *)
Fixpoint before (delim s : string) : string :=
  match s with
  | EmptyString => EmptyString
  | String c s' =>
      if PyStr.starts_with delim s then EmptyString
      else String c (before delim s')
  end.

(** The aggregation identifier of a key value. *)
Definition ident (delim v : string) : string :=
  if PyStr.contains delim v then before delim v else v.

(** *** Scores *)

(** The fraction read from a curve, when there is one, is in [0,1]. *)
Definition fraction_ok (c : curve) : Prop :=
  forall p, head c = Some p -> (0 <= snd p /\ snd p <= 1)%Q.

(** The contract of the two curve evaluators. *)
Definition curves_in_range (X : externals) : Prop :=
  (forall seq oc na mg fa fm mv fgc dh ds t z st d c,
      duMelt_curve X seq oc na mg fa fm mv fgc dh ds t z st d = Ok c ->
      fraction_ok c) /\
  (forall dh ds t fa z st c,
      ssMelt_curve X dh ds t fa z st = Ok c -> fraction_ok c).

(** [v] is the least element of [l]. *)
Definition is_min (v : Q) (l : list Q) : Prop :=
  In v l /\ Forall (fun x => (v <= x)%Q) l.

(** The scores of the probes [keys], in order, when each is scored. *)
Definition scored (X : externals) (a : args) (mv : Q -> result Q)
    (t s : table) (keys : list string) (scores : list Q) : Prop :=
  Forall2 (fun k sc => exists v, probe X a mv t s k = Ok v /\ score v = sc)
    keys scores.

(** The running minimum after the scores [l], from [m]. *)
Definition running_min (m : Q) (l : list Q) : Q :=
  foldl (fun m sc => update_min sc m) m l.

(** The lines written for probes scored [scores]. *)
Definition score_lines (keys : list string) (scores : list Q) : list chunk :=
  zip_with WScore keys scores.

(** *** The run *)

(** The world once lines 104-106 have run. *)
Definition after_prepare (a : args) : world :=
  World [] (if doSingleOut a then Opened [WText header] else NotOpened).

(** The table loaded from [path], and what loading it prints. *)
Definition table_of (fs : files) (path : string) : result table :=
  let rows := fst (read_tsv fs path) in
  reparse_tsv_list rows (seq 0 (length rows)) "oligo_name" ",".

Definition diag_of (fs : files) (path : string) : list printed :=
  snd (read_tsv fs path).

(** The world after [ps] was printed. *)
Definition say (ps : list printed) (w : world) : world :=
  World (stdout w ++ ps) (fout w).

(** The world after [lines] were written to the open stream. *)
Definition put (lines : list chunk) (w : world) : world :=
  World (stdout w)
    match fout w with
    | Opened l => Opened (l ++ lines)
    | st => st
    end.

(** The world after the stream was closed, when the run opened one. *)
Definition shut (a : args) (w : world) : world :=
  if doSingleOut a then World (stdout w) (Closed (written w)) else w.

(** The per-probe lines of a run that asked for them. *)
Definition lines_of (a : args) (keys : list string) (scores : list Q)
    : list chunk :=
  if doSingleOut a then score_lines keys scores else [].

(** The world the probe loop starts from. *)
Definition loop_start (a : args) (fs : files) : world :=
  say (diag_of fs (second_tsv a))
    (say (diag_of fs (target_tsv a)) (after_prepare a)).

(** The numbers among what was printed. *)
Definition number_of (p : printed) : option Q :=
  match p with
  | PNum q => Some q
  | PStr _ => None
  end.

Definition printed_numbers (w : world) : list Q := omap number_of (stdout w).

(** The stream is open whenever the run writes to it. *)
Definition stream_ready (a : args) (w : world) : Prop :=
  doSingleOut a = true -> exists l, fout w = Opened l.

(** A row after the aggregator went over it. *)
Definition normalise (k delim : string) (r : row) : row :=
  match r !! k with
  | Some v => <[k := ident delim v]> r
  | None => r
  end.

(** ** Sample inputs *)

Module Sample.

(** A stand-in for the melting library: temperatures pass through, the
    duplex is a quarter dissociated for a long probe and half dissociated
    for a short one, the single strand is always half unfolded. *)
Definition lib : externals :=
  Externals
    (fun _ => None)
    (fun temp _ _ _ _ => Ok temp)
    (fun temp _ _ _ _ _ _ _ _ _ => Ok temp)
    (fun seq _ _ _ _ _ _ _ _ _ temp _ _ _ =>
       Ok [(temp, if (String.length seq <=? 4)%nat then 0.5%Q else 0.25%Q)])
    (fun temp _ _ => Ok temp)
    (fun _ _ temp _ _ _ => Ok [(temp, 0.5%Q)]).

Definition line (fields : list string) : string :=
  foldr (fun f acc => if PyStr.is_empty acc then f
                      else String.append f (String.append tab acc))
    EmptyString fields.

Definition target_lines : list string :=
  [line ["oligo_name"; "dH"; "dS"; "Seq"];
   "p1,v2 -80 -200 GCGCGCGC";
   "p1,v3 -70 -190 GCGC";
   "p2 -60 -150 atgc"].

Definition second_lines : list string :=
  [line ["oligo_name"; "dH"; "dS"];
   "p1 -20 -50";
   "p2 -10 -30"].

(** The secondary table without the probe p2. *)
Definition second_short : list string :=
  [line ["oligo_name"; "dH"; "dS"];
   "p1 -20 -50"].

Definition disk : files := fun path =>
  if String.eqb path "target.tsv" then Some target_lines
  else if String.eqb path "second.tsv" then Some second_lines
  else if String.eqb path "short.tsv" then Some second_short
  else if String.eqb path "blank.tsv" then Some [""; "x"]
  else if String.eqb path "late.tsv" then Some [""; line ["a"; "b"]; "1 2"]
  else if String.eqb path "wide.tsv" then Some [line ["a"; "b"]; "1 2"; "1 2 3"]
  else if String.eqb path "probe.tsv" then Some ["oligo_name"; "probe1,v2"]
  else None.

Definition cmd (second m : string) (out : option string) : args :=
  Args "target.tsv" second 37 DNA_DNA 0.25e-6 50e-3 0 35 mcconaughy m out.

(** Two row objects whose keys share a prefix, before and after the
    aggregator went over them. *)
Definition two_rows : store :=
  [{[ "oligo_name" := "probe1,v2"; "dH" := "-80" ]};
   {[ "oligo_name" := "probe1"; "dH" := "-70" ]}].

Definition two_rows_after : store :=
  [{[ "oligo_name" := "probe1"; "dH" := "-80" ]};
   {[ "oligo_name" := "probe1"; "dH" := "-70" ]}].

(** The table a path loads to; empty when loading it ends the run. *)
Definition loaded (path : string) : table :=
  match table_of disk path with
  | Ok tbl => tbl
  | Raise _ => ([], [])
  end.

End Sample.

(** ** Notions used by the further properties *)

(** [sep.join(l)] *)
Fixpoint join (sep : string) (l : list string) : string :=
  match l with
  | [] => EmptyString
  | x :: l' =>
      match l' with
      | [] => x
      | _ :: _ => String.append x (String.append sep (join sep l'))
      end
  end.

(** The text after the first [n] characters. *)
Fixpoint drop_chars (n : nat) (s : string) : string :=
  match n, s with
  | O, _ => s
  | S n', String _ s' => drop_chars n' s'
  | S _, EmptyString => EmptyString
  end.

(** The text after the first occurrence of [delim]. *)
Fixpoint after (delim s : string) : string :=
  match s with
  | EmptyString => EmptyString
  | String c s' =>
      if PyStr.starts_with delim s then drop_chars (String.length delim) s
      else after delim s'
  end.

(** A text without blanks. *)
Definition solid (s : string) : bool :=
  PyFloat.all_chars (fun c => negb (PyStr.is_space c)) s.

(** A token: not empty, no blank. *)
Definition is_token (s : string) : Prop := s <> "" /\ solid s = true.

(** The keys of a dict filled in the order of [l]: first occurrences. *)
Definition see (acc : list string) (x : string) : list string :=
  if existsb (String.eqb x) acc then acc else acc ++ [x].

Definition first_seen (l : list string) : list string := foldl see [] l.

(** The identifier under which the row object [d] is filed. *)
Definition id_of (k delim : string) (sigma : store) (d : nat) : option string :=
  r ← sigma !! d; v ← r !! k; Some (ident delim v).

(** The rows of [l] filed under [i], in the order of [l]. *)
Definition members (k delim : string) (sigma : store) (i : string)
    (l : list nat) : list nat :=
  filter (fun d => id_of k delim sigma d = Some i) l.

(** The dict entry of a group: none when no row is filed under the key. *)
Definition group_of (g : list nat) : option (list nat) :=
  match g with
  | [] => None
  | _ :: _ => Some g
  end.

(** The row object [d] exists and holds the key field. *)
Definition has_key (k : string) (sigma : store) (d : nat) : Prop :=
  exists r v, sigma !! d = Some r /\ r !! k = Some v.

(** Line 241: the GC fraction of the sequence text of a row. *)
Definition fgc_of (s_seq : string) : result Q :=
  let seq := PyStr.upper s_seq in
  fdiv (Qnat (PyStr.count "G" seq + PyStr.count "C" seq))
       (Qnat (String.length seq) + 0).

(** The characters an accepted m-value text is made of. *)
Definition mvalue_char (c : ascii) : bool :=
  PyFloat.is_sign c || PyFloat.is_num c || is_L c.

(** More sample inputs. *)
Module Sample2.

Definition disk : files := fun path =>
  if String.eqb path "gap.tsv"
  then Some [Sample.line ["oligo_name"; "dH"]; "p1 -80"; "   "; "p2 -70"]
  else if String.eqb path "nokey.tsv"
  then Some [Sample.line ["name"; "dH"]; "p1 -80"]
  else if String.eqb path "twice.tsv"
  then Some [Sample.line ["dH"; "oligo_name"; "dH"]; "-80 p1 -81"]
  else if String.eqb path "nodh.tsv"
  then Some [Sample.line ["oligo_name"; "Seq"]; "p1 GCGC"]
  else Sample.disk path.

End Sample2.

(** A target table whose only probe has a dH that is no number. *)
Module Sample3.

Definition disk : files := fun path =>
  if String.eqb path "badnum.tsv"
  then Some [Sample.line ["oligo_name"; "dH"; "dS"; "Seq"];
             "p9 abc -200 GCGC"]
  else Sample.disk path.

Definition cmd (target second : string) : args :=
  Args target second 37 DNA_DNA 0.25e-6 50e-3 0 35 mcconaughy "0.1734"
    (Some "scores.tsv").

End Sample3.

(** * Proofs *)

Local Arguments String.append !_ _ / : simpl nomatch.

(** ** Strings *)

Section StringFacts.

Lemma append_nil_r (s : string) : String.append s "" = s.
Proof. induction s as [|c s IH]; simpl; [reflexivity | now rewrite IH]. Qed.

Lemma append_assoc (a b c : string) :
  String.append (String.append a b) c = String.append a (String.append b c).
Proof. induction a as [|x a IH]; simpl; [reflexivity | now rewrite IH]. Qed.

Lemma length_append (a b : string) :
  String.length (String.append a b) = (String.length a + String.length b)%nat.
Proof. induction a as [|x a IH]; simpl; [reflexivity | now rewrite IH]. Qed.

Lemma all_chars_append (p : ascii -> bool) (a b : string) :
  PyFloat.all_chars p (String.append a b) =
  PyFloat.all_chars p a && PyFloat.all_chars p b.
Proof.
  induction a as [|x a IH]; simpl; [reflexivity |].
  rewrite IH. now rewrite andb_assoc.
Qed.

Lemma take_drop_while (p : ascii -> bool) (s : string) :
  String.append (take_while p s) (drop_while p s) = s.
Proof.
  induction s as [|c s IH]; simpl; [reflexivity |].
  destruct (p c); simpl; [now rewrite IH | reflexivity].
Qed.

Lemma take_while_all (p : ascii -> bool) (s : string) :
  PyFloat.all_chars p (take_while p s) = true.
Proof.
  induction s as [|c s IH]; simpl; [reflexivity |].
  destruct (p c) eqn:E; simpl; [now rewrite E | reflexivity].
Qed.

(** A run of the class followed by a character outside it is cut there. *)
Lemma take_while_stop (p : ascii -> bool) (a : string) (c : ascii) (r : string) :
  PyFloat.all_chars p a = true -> p c = false ->
  take_while p (String.append a (String c r)) = a /\
  drop_while p (String.append a (String c r)) = String c r.
Proof.
  intros Ha Hc. induction a as [|x a IH]; simpl in *.
  - now rewrite Hc.
  - apply andb_prop in Ha as [Hx Ha]. rewrite Hx.
    destruct (IH Ha) as [-> ->]. now split.
Qed.

Lemma take_while_whole (p : ascii -> bool) (a : string) :
  PyFloat.all_chars p a = true ->
  take_while p a = a /\ drop_while p a = "".
Proof.
  intros Ha. induction a as [|x a IH]; simpl in *; [now split |].
  apply andb_prop in Ha as [Hx Ha]. rewrite Hx.
  destruct (IH Ha) as [-> ->]. now split.
Qed.

End StringFacts.

(** ** The matcher *)

Section Matcher.

Lemma star_sound (cls : ascii -> bool) (k : string -> option (list string))
    (s : string) (r : list string) :
  Re.star cls k s = Some r ->
  exists a ps rest,
    r = a :: ps /\ PyFloat.all_chars cls a = true /\
    s = String.append a rest /\ k rest = Some ps.
Proof.
  revert r. induction s as [|c s IH]; intros r H; simpl in H.
  - destruct (k "") as [ps|] eqn:E; simpl in H; [|discriminate].
    injection H as <-. exists "", ps, "". now repeat split.
  - assert (Hskip : Re.skip (k (String c s)) = Some r ->
        exists a ps rest, r = a :: ps /\ PyFloat.all_chars cls a = true /\
          String c s = String.append a rest /\ k rest = Some ps).
    { intros H'. destruct (k (String c s)) as [ps|] eqn:E; simpl in H';
        [|discriminate].
      injection H' as <-. exists "", ps, (String c s). now repeat split. }
    destruct (cls c) eqn:Hc; [|now apply Hskip].
    destruct (Re.star cls k s) as [r'|] eqn:E; [|now apply Hskip].
    destruct (IH r' eq_refl) as (a & ps & rest & -> & Ha & -> & Hk).
    simpl in H. injection H as <-.
    exists (String c a), ps, rest. simpl. rewrite Hc, Ha. now repeat split.
Qed.

(** The star takes the longest run when the rest matches after it. *)
Lemma star_greedy (cls : ascii -> bool) (k : string -> option (list string))
    (s : string) (ps : list string) :
  k (drop_while cls s) = Some ps ->
  Re.star cls k s = Some (take_while cls s :: ps).
Proof.
  induction s as [|c s IH]; simpl; intros H.
  - now rewrite H.
  - destruct (cls c) eqn:Hc.
    + now rewrite (IH H).
    + now rewrite H.
Qed.

Lemma match_sound (p : list Re.atom) :
  forall s ps, Re.match_at p s = Some ps ->
    Forall2 atom_ok p ps /\ exists rest, s = String.append (Re.concat ps) rest.
Proof.
  induction p as [|a p IH]; intros s ps H; simpl in H.
  - injection H as <-. split; [constructor | now exists s].
  - destruct a as [cls|cls|cls].
    + destruct s as [|c s]; [discriminate |].
      destruct (cls c) eqn:Hc; [|discriminate].
      destruct (Re.match_at p s) as [r|] eqn:E; simpl in H; [|discriminate].
      injection H as <-. destruct (IH _ _ E) as [HF [rest ->]].
      split; [constructor; [now exists c | exact HF] | now exists rest].
    + assert (Hskip : forall s, Re.skip (Re.match_at p s) = Some ps ->
          Forall2 atom_ok (Re.Opt cls :: p) ps /\
          exists rest, s = String.append (Re.concat ps) rest).
      { intros s0 H'. destruct (Re.match_at p s0) as [r|] eqn:E; simpl in H';
          [|discriminate].
        injection H' as <-. destruct (IH _ _ E) as [HF [rest ->]].
        split; [constructor; [now left | exact HF] | now exists rest]. }
      destruct s as [|c s]; [now apply Hskip |].
      destruct (cls c) eqn:Hc; [|now apply Hskip].
      destruct (Re.match_at p s) as [r|] eqn:E; [|now apply Hskip].
      simpl in H. injection H as <-. destruct (IH _ _ E) as [HF [rest ->]].
      split; [constructor; [right; now exists c | exact HF] | now exists rest].
    + apply star_sound in H as (x & r & rest & -> & Hx & -> & Hk).
      destruct (IH _ _ Hk) as [HF [rest' ->]].
      split; [constructor; [exact Hx | exact HF] |].
      exists rest'. simpl. now rewrite append_assoc.
Qed.

(** A match found by [search] is the one at the start of the text, or it
    is shorter than the text. *)
Lemma search_sound (p : list Re.atom) (s : string) (ps : list string) :
  Re.search p s = Some ps ->
  Forall2 atom_ok p ps /\
  (Re.match_at p s = Some ps \/
   (String.length (Re.concat ps) < String.length s)%nat).
Proof.
  induction s as [|c s IH]; simpl; intros H.
  - destruct (Re.match_at p "") as [r|] eqn:E; [|discriminate].
    injection H as <-. split; [exact (proj1 (match_sound _ _ _ E)) | now left].
  - destruct (Re.match_at p (String c s)) as [r|] eqn:E.
    + injection H as <-. split; [exact (proj1 (match_sound _ _ _ E)) | now left].
    + destruct (IH H) as [HF [Hm | Hl]]; (split; [exact HF | right]).
      * destruct (match_sound _ _ _ Hm) as [_ [rest Hr]].
        apply (f_equal String.length) in Hr. rewrite length_append in Hr.
        simpl. lia.
      * simpl. lia.
Qed.

(** When the found match is the whole text, it is the match at its start. *)
Lemma search_whole (p : list Re.atom) (s : string) (ps : list string) :
  Re.search p s = Some ps -> s = Re.concat ps ->
  Re.match_at p s = Some ps /\ Forall2 atom_ok p ps.
Proof.
  intros H Hs. destruct (search_sound _ _ _ H) as [HF [Hm | Hl]].
  - now split.
  - rewrite <- Hs in Hl. lia.
Qed.

Lemma search_at_start (p : list Re.atom) (s : string) (ps : list string) :
  Re.match_at p s = Some ps -> Re.search p s = Some ps.
Proof. intros H. destruct s; simpl; now rewrite H. Qed.

End Matcher.

(** ** The m-value patterns *)

Section MValue.

Lemma is_L_eq (c : ascii) : is_L c = true -> c = "L"%char.
Proof. unfold is_L. now intros H%Ascii.eqb_eq. Qed.

Lemma is_sign_cases (c : ascii) :
  PyFloat.is_sign c = true -> c = "+"%char \/ c = "-"%char.
Proof.
  unfold PyFloat.is_sign. intros [H|H]%orb_prop; apply Ascii.eqb_eq in H; auto.
Qed.

Lemma num_not_sign (c : ascii) :
  PyFloat.is_num c = true -> PyFloat.is_sign c = false.
Proof.
  intros H. destruct (PyFloat.is_sign c) eqn:E; [|reflexivity].
  destruct (is_sign_cases _ E) as [-> | ->]; discriminate H.
Qed.

Lemma sign_not_num (c : ascii) :
  PyFloat.is_sign c = true -> PyFloat.is_num c = false.
Proof. intros H. destruct (is_sign_cases _ H) as [-> | ->]; reflexivity. Qed.

(** The part of the first pattern after the optional sign, on a text of
    the right shape. *)
Lemma match_linear_tail (body : string) (sg : ascii) (d : string) :
  nums body -> PyFloat.is_sign sg = true -> nums d ->
  Re.match_at (tail mregex0) (String.append body (String "L" (String sg d))) =
  Some [body; "L"; String sg ""; d].
Proof.
  intros Hb Hs Hd. unfold mregex0. simpl tail.
  change (Re.match_at (Re.Star PyFloat.is_num :: ?p)) with
    (Re.star PyFloat.is_num (Re.match_at p)).
  destruct (take_while_stop PyFloat.is_num body "L" (String sg d) Hb eq_refl)
    as [Ht Hdr].
  rewrite <- Ht at 2. apply star_greedy. rewrite Hdr.
  simpl. rewrite Hs.
  destruct (take_while_whole PyFloat.is_num d Hd) as [Ht' Hd'].
  rewrite (star_greedy PyFloat.is_num (fun _ => Some []) d []);
    [| reflexivity].
  now rewrite Ht'.
Qed.

Lemma match_linear (sgx body : string) (sg : ascii) (d : string) :
  sign_text sgx -> nums body -> PyFloat.is_sign sg = true -> nums d ->
  Re.match_at mregex0
    (String.append (String.append sgx body) (String "L" (String sg d))) =
  Some [sgx; body; "L"; String sg ""; d].
Proof.
  intros Hx Hb Hs Hd.
  pose proof (match_linear_tail body sg d Hb Hs Hd) as Ht.
  change mregex0 with (Re.Opt PyFloat.is_sign :: tail mregex0).
  destruct Hx as [-> | [-> | ->]].
  - simpl String.append at 2.
    destruct body as [|c body].
    + simpl in Ht |- *. simpl. exact (f_equal Re.skip Ht).
    + unfold nums in Hb. simpl in Hb. apply andb_prop in Hb as [Hc _].
      simpl String.append in Ht |- *.
      cbn [Re.match_at]. rewrite (num_not_sign _ Hc).
      exact (f_equal Re.skip Ht).
  - simpl String.append. cbn [Re.match_at]. simpl PyFloat.is_sign.
    cbv iota. now rewrite Ht.
  - simpl String.append. cbn [Re.match_at]. simpl PyFloat.is_sign.
    cbv iota. now rewrite Ht.
Qed.

Lemma match_constant (sgx body : string) :
  sign_text sgx -> nums body ->
  Re.match_at mregex1 (String.append sgx body) = Some [sgx; body].
Proof.
  intros Hx Hb.
  destruct (take_while_whole PyFloat.is_num body Hb) as [Ht Hd].
  assert (Hk : Re.match_at (tail mregex1) body = Some [body]).
  { unfold mregex1. simpl tail.
    change (Re.match_at [Re.Star PyFloat.is_num]) with
      (Re.star PyFloat.is_num (Re.match_at [])).
    rewrite <- Ht at 2. apply star_greedy. reflexivity. }
  change mregex1 with (Re.Opt PyFloat.is_sign :: tail mregex1).
  destruct Hx as [-> | [-> | ->]].
  - simpl String.append. destruct body as [|c body].
    + reflexivity.
    + unfold nums in Hb. simpl in Hb. apply andb_prop in Hb as [Hc _].
      cbn [Re.match_at]. rewrite (num_not_sign _ Hc).
      exact (f_equal Re.skip Hk).
  - simpl String.append. cbn [Re.match_at]. simpl PyFloat.is_sign.
    cbv iota. now rewrite Hk.
  - simpl String.append. cbn [Re.match_at]. simpl PyFloat.is_sign.
    cbv iota. now rewrite Hk.
Qed.

Lemma opt_sign_text (a : string) :
  atom_ok (Re.Opt PyFloat.is_sign) a -> sign_text a.
Proof.
  intros [-> | (c & -> & Hc)]; [now left |].
  destruct (is_sign_cases _ Hc) as [-> | ->]; [right; now left | right; now right].
Qed.

(** What the first pattern accepts as a whole text. *)
Lemma parse_linear_iff (s : string) (m : mvalue_t) :
  parse_linear s = Some m <->
  exists x y, m = Linear x y /\ s = String.append x (String "L" y) /\
              constant_shape x /\ signed_shape y.
Proof.
  unfold parse_linear. split.
  - destruct (Re.search mregex0 s) as [pieces|] eqn:E; [|discriminate].
    unfold groups0. destruct (String.eqb_spec s (Re.concat pieces)) as [Hs|];
      [|discriminate].
    intros [= <-]. destruct (search_whole _ _ _ E Hs) as [_ HF].
    unfold mregex0 in HF.
    apply Forall2_cons_inv_l in HF as (a & l1 & Ha & HF & ->).
    apply Forall2_cons_inv_l in HF as (b & l2 & Hb & HF & ->).
    apply Forall2_cons_inv_l in HF as (l & l3 & Hl & HF & ->).
    apply Forall2_cons_inv_l in HF as (c & l4 & Hc & HF & ->).
    apply Forall2_cons_inv_l in HF as (d & l5 & Hd & HF & ->).
    apply Forall2_nil_inv_l in HF as ->.
    destruct Hl as (cl & -> & ->%is_L_eq). destruct Hc as (sg & -> & Hsg).
    simpl in Ha, Hb, Hd.
    exists (String.append a b), (String sg d). repeat split.
    + simpl. now rewrite !append_nil_r.
    + rewrite Hs. simpl. now rewrite append_nil_r, append_assoc.
    + exists a, b. split; [reflexivity | split; [now apply opt_sign_text | exact Hb]].
    + exists sg, d. now repeat split.
  - intros (x & y & -> & -> & (sgx & body & -> & Hx & Hb) & (sg & d & -> & Hs & Hd)).
    rewrite (search_at_start _ _ _ (match_linear sgx body sg d Hx Hb Hs Hd)).
    unfold groups0. simpl. rewrite !append_nil_r.
    rewrite <- append_assoc.
    now rewrite String.eqb_refl.
Qed.

(** What the second pattern accepts as a whole text. *)
Lemma parse_constant_iff (s : string) (m : mvalue_t) :
  parse_constant s = Some m <-> m = Constant s /\ constant_shape s.
Proof.
  unfold parse_constant. split.
  - destruct (Re.search mregex1 s) as [pieces|] eqn:E; [|discriminate].
    unfold groups1. destruct (String.eqb_spec s (Re.concat pieces)) as [Hs|];
      [|discriminate].
    intros [= <-]. destruct (search_whole _ _ _ E Hs) as [_ HF].
    unfold mregex1 in HF.
    apply Forall2_cons_inv_l in HF as (a & l1 & Ha & HF & ->).
    apply Forall2_cons_inv_l in HF as (b & l2 & Hb & HF & ->).
    apply Forall2_nil_inv_l in HF as ->.
    split; [now rewrite <- Hs |].
    exists a, b. split; [|split; [now apply opt_sign_text | exact Hb]].
    rewrite Hs. simpl. now rewrite append_nil_r.
  - intros (-> & sgx & body & -> & Hx & Hb).
    rewrite (search_at_start _ _ _ (match_constant sgx body Hx Hb)).
    unfold groups1. simpl. rewrite append_nil_r.
    now rewrite String.eqb_refl.
Qed.

Lemma sign_text_plain (s : string) : sign_text s -> PyFloat.plain s = true.
Proof. intros [-> | [-> | ->]]; reflexivity. Qed.

Lemma nums_plain (s : string) : nums s -> PyFloat.plain s = true.
Proof.
  unfold nums, PyFloat.plain. induction s as [|c s IH]; simpl; [reflexivity |].
  intros [Hc Hs]%andb_prop. rewrite Hc, (IH Hs). now rewrite orb_true_r.
Qed.

(** A text of the constant shape holds signs, digits and dots only. *)
Lemma constant_shape_plain (s : string) :
  constant_shape s -> PyFloat.plain s = true.
Proof.
  intros (sg & body & -> & Hs & Hb). unfold PyFloat.plain.
  rewrite all_chars_append.
  apply andb_true_intro. split; [now apply sign_text_plain | now apply nums_plain].
Qed.

(** The two shapes exclude each other: only one of them has an L. *)
Lemma linear_not_constant (s : string) :
  linear_shape s -> ~ constant_shape s.
Proof.
  intros (x & y & -> & _ & _) Hc. apply constant_shape_plain in Hc.
  unfold PyFloat.plain in Hc. rewrite all_chars_append in Hc.
  apply andb_prop in Hc as [_ Hc]. discriminate Hc.
Qed.

Lemma parse_linear_shape (s : string) :
  is_Some (parse_linear s) <-> linear_shape s.
Proof.
  split.
  - intros [m Hm]. apply parse_linear_iff in Hm as (x & y & _ & Hs & Hx & Hy).
    now exists x, y.
  - intros (x & y & Hs & Hx & Hy). exists (Linear x y).
    apply parse_linear_iff. now exists x, y.
Qed.

Lemma parse_constant_shape (s : string) :
  is_Some (parse_constant s) <-> constant_shape s.
Proof.
  split.
  - intros [m Hm]. now apply parse_constant_iff in Hm.
  - intros H. exists (Constant s). now apply parse_constant_iff.
Qed.

Lemma parse_mvalue_none (s : string) :
  parse_mvalue s = None <-> ~ constant_shape s /\ ~ linear_shape s.
Proof.
  unfold parse_mvalue. split.
  - intros H. destruct (parse_linear s) as [m|] eqn:El; [discriminate |].
    split.
    + intros Hc%parse_constant_shape. rewrite H in Hc. now destruct Hc.
    + intros Hl%parse_linear_shape. rewrite El in Hl. now destruct Hl.
  - intros [Hc Hl].
    destruct (parse_linear s) as [m|] eqn:El.
    + exfalso. apply Hl, parse_linear_shape. now rewrite El.
    + destruct (parse_constant s) as [m|] eqn:Ec; [|reflexivity].
      exfalso. apply Hc, parse_constant_shape. now rewrite Ec.
Qed.

Lemma parse_mvalue_constant (s : string) :
  constant_shape s -> parse_mvalue s = Some (Constant s).
Proof.
  intros H. unfold parse_mvalue.
  destruct (parse_linear s) as [m|] eqn:El.
  - exfalso. apply (linear_not_constant s); [|exact H].
    apply parse_linear_shape. now rewrite El.
  - now apply parse_constant_iff.
Qed.

Lemma parse_mvalue_linear (x y : string) :
  constant_shape x -> signed_shape y ->
  parse_mvalue (String.append x (String "L" y)) = Some (Linear x y).
Proof.
  intros Hx Hy. unfold parse_mvalue.
  assert (H : parse_linear (String.append x (String "L" y)) = Some (Linear x y)).
  { apply parse_linear_iff. now exists x, y. }
  now rewrite H.
Qed.

End MValue.

(** ** The table reader *)

Section Reader.

Lemma cons_head_nonempty (c : ascii) (l : list string) : PyStr.cons_head c l <> [].
Proof. now destruct l. Qed.

(** [split] with a separator always returns at least one field. *)
Lemma split_go_nonempty (sep : string) (s : string) :
  forall n, PyStr.split_go sep n s <> [].
Proof.
  induction s as [|c s IH]; intros n; simpl; [discriminate |].
  destruct n as [|n]; [|apply IH].
  destruct (PyStr.starts_with sep (String c s)); [discriminate |].
  apply cons_head_nonempty.
Qed.

Lemma header_of_nonempty (first : string) : header_of first <> [].
Proof. apply split_go_nonempty. Qed.

(** Once the field names are set, every line is a data line. *)
Lemma read_rows_data (path : string) (first_row : list string) :
  first_row <> [] ->
  forall rest out,
    read_rows path first_row out rest =
    if forallb (fits first_row) rest
    then (out ++ map (fun l => fill_row ∅ first_row (tokens l)) rest, [])
    else ([], [PStr (column_error path)]).
Proof.
  intros Hne. induction rest as [|line rest IH]; intros out; simpl.
  - now rewrite app_nil_r.
  - destruct first_row as [|f first_row]; [contradiction |].
    change (length (f :: first_row) =? 0)%nat with false. cbv iota.
    fold (tokens line). unfold fits at 1.
    destruct (length (tokens line) =? length (f :: first_row))%nat eqn:E; simpl.
    + rewrite IH. destruct (forallb (fits (f :: first_row)) rest);
        [now rewrite <- app_assoc | reflexivity].
    + reflexivity.
Qed.

(** The whole reader on an existing file with at least one line. *)
Lemma read_tsv_lines (fs : files) (path first : string) (rest : list string) :
  fs path = Some (first :: rest) ->
  read_tsv fs path =
  if forallb (fits (header_of first)) rest
  then (map (fun l => fill_row ∅ (header_of first) (tokens l)) rest, [])
  else ([], [PStr (column_error path)]).
Proof.
  intros H. unfold read_tsv. rewrite H. simpl.
  fold (header_of first).
  now rewrite (read_rows_data path _ (header_of_nonempty first)).
Qed.

Lemma forallb_fits_false (first_row : list string) (rest : list string) :
  Exists (fun l => length (tokens l) <> length first_row) rest ->
  forallb (fits first_row) rest = false.
Proof.
  induction 1 as [l rest H | l rest _ IH]; simpl.
  - unfold fits at 1. apply Nat.eqb_neq in H. now rewrite H.
  - rewrite IH. apply andb_false_r.
Qed.

End Reader.

(** ** The table aggregator *)

Section Aggregator.

Lemma starts_with_iff (p s : string) :
  PyStr.starts_with p s = true <-> exists r, s = String.append p r.
Proof.
  revert s. induction p as [|a p IH]; intros s; simpl.
  - split; [intros _; now exists s | reflexivity].
  - destruct s as [|b s].
    + split; [discriminate | intros [r Hr]; discriminate Hr].
    + split.
      * intros [Hab Hp]%andb_prop. apply Ascii.eqb_eq in Hab as ->.
        apply IH in Hp as [r ->]. now exists r.
      * intros [r Hr]. injection Hr as -> ->.
        rewrite Ascii.eqb_refl. simpl. apply IH. now exists r.
Qed.

(** [split(delim)[0]] is the text before the first occurrence. *)
Lemma truncate_before (delim v : string) : truncate delim v = before delim v.
Proof.
  unfold truncate.
  enough (H : head (PyStr.split_go delim 0 v) = Some (before delim v))
    by now rewrite H.
  induction v as [|c v IH]; simpl; [reflexivity |].
  destruct (PyStr.starts_with delim (String c v)); [reflexivity |].
  destruct (PyStr.split_go delim 0 v) as [|h t]; [discriminate IH |].
  simpl in IH |- *. now injection IH as ->.
Qed.

Lemma before_prefix (delim v : string) :
  exists rest, v = String.append (before delim v) rest.
Proof.
  induction v as [|c v [rest IH]]; simpl; [now exists "" |].
  destruct (PyStr.starts_with delim (String c v)).
  - now exists (String c v).
  - exists rest. simpl. now rewrite <- IH.
Qed.

(** The delimiter follows the text kept. *)
Lemma before_delim (delim v : string) :
  PyStr.contains delim v = true ->
  exists rest, v = String.append (before delim v) (String.append delim rest).
Proof.
  induction v as [|c v IH]; simpl.
  - rewrite orb_false_r. intros [r Hr]%starts_with_iff. now exists r.
  - destruct (PyStr.starts_with delim (String c v)) eqn:E.
    + intros _. apply starts_with_iff in E as [r ->]. now exists r.
    + simpl. intros [rest Hr]%IH. exists rest. simpl. now rewrite <- Hr.
Qed.

(** No occurrence of the delimiter starts earlier. *)
Lemma before_first (delim : string) (u w : string) :
  (String.length (before delim (String.append u (String.append delim w)))
   <= String.length u)%nat.
Proof.
  induction u as [|c u IH]; simpl.
  - destruct (String.append delim w) as [|c v] eqn:E; simpl; [lia |].
    assert (H : PyStr.starts_with delim (String c v) = true)
      by (apply starts_with_iff; now exists w).
    rewrite H. simpl. lia.
  - destruct (PyStr.starts_with delim _); simpl; lia.
Qed.

Lemma contains_empty (delim : string) :
  delim <> "" -> PyStr.contains delim "" = false.
Proof. intros H. destruct delim; [contradiction | reflexivity]. Qed.

(** The text kept holds no delimiter. *)
Lemma before_clean (delim v : string) :
  delim <> "" -> PyStr.contains delim (before delim v) = false.
Proof.
  intros Hd. induction v as [|c v IH]; simpl before.
  - now apply contains_empty.
  - destruct (PyStr.starts_with delim (String c v)) eqn:E;
      [now apply contains_empty |].
    simpl PyStr.contains. rewrite IH, orb_false_r.
    destruct (PyStr.starts_with delim (String c (before delim v))) eqn:E';
      [|reflexivity].
    apply starts_with_iff in E' as [r Hr].
    destruct (before_prefix delim v) as [rest Hv].
    assert (H : PyStr.starts_with delim (String c v) = true).
    { apply starts_with_iff. exists (String.append r rest).
      rewrite <- append_assoc, <- Hr. simpl. now rewrite <- Hv. }
    congruence.
Qed.

Lemma ident_idem (delim v : string) :
  delim <> "" -> ident delim (ident delim v) = ident delim v.
Proof.
  intros Hd. unfold ident at 2 3.
  destruct (PyStr.contains delim v) eqn:E.
  - unfold ident. now rewrite (before_clean delim v Hd).
  - unfold ident. now rewrite E.
Qed.

Lemma normalise_idem (k delim : string) (r : row) :
  delim <> "" -> normalise k delim (normalise k delim r) = normalise k delim r.
Proof.
  intros Hd. unfold normalise at 2 3.
  destruct (r !! k) as [v|] eqn:E.
  - unfold normalise. rewrite lookup_insert_eq, (ident_idem _ _ Hd).
    apply insert_insert_eq.
  - unfold normalise. now rewrite E.
Qed.

Lemma normalise_key (k delim : string) (r : row) (v : string) :
  r !! k = Some v -> normalise k delim r !! k = Some (ident delim v).
Proof. intros H. unfold normalise. rewrite H. apply lookup_insert_eq. Qed.

Lemma normalise_other (k delim : string) (r : row) (f : string) :
  f <> k -> normalise k delim r !! f = r !! f.
Proof.
  intros H. unfold normalise. destruct (r !! k); [|reflexivity].
  now apply lookup_insert_ne.
Qed.

(** One turn: the row is normalised in place and filed under its identifier. *)
Lemma reparse_step_ok (k delim : string) (sigma : store) (outd : groups)
    (d : nat) (st' : store * groups) :
  delim <> "" ->
  reparse_step k delim (sigma, outd) d = Ok st' ->
  exists r v,
    sigma !! d = Some r /\ r !! k = Some v /\
    st' = (<[d := normalise k delim r]> sigma, dict_add (ident delim v) d outd).
Proof.
  intros Hd. unfold reparse_step.
  destruct (sigma !! d) as [r|] eqn:Er; [|discriminate].
  destruct (r !! k) as [v|] eqn:Ev; [|discriminate].
  assert (Hn : normalise k delim r = <[k := ident delim v]> r)
    by (unfold normalise; now rewrite Ev).
  unfold ident in *.
  destruct (PyStr.contains delim v) eqn:Ec.
  - destruct delim as [|c delim]; [contradiction |]. simpl PyStr.is_empty.
    cbv iota. rewrite truncate_before. intros [= <-]. exists r, v.
    rewrite Hn, Ec. now repeat split.
  - intros [= <-]. exists r, v. rewrite Hn, Ec. repeat split; [exact Ev |].
    rewrite (insert_id r k v Ev). now rewrite (list_insert_id sigma d r Er).
Qed.

Lemma dict_add_same (key : string) (d : nat) (outd : groups) :
  exists g, dict_get key (dict_add key d outd) = Some g /\ d ∈ g.
Proof.
  induction outd as [|[k' g] outd IH]; simpl.
  - rewrite String.eqb_refl. exists [d].
    split; [reflexivity | apply list_elem_of_here].
  - destruct (String.eqb_spec key k') as [->|Hne]; simpl.
    + rewrite String.eqb_refl. exists (g ++ [d]).
      split; [reflexivity | apply elem_of_app; right; apply list_elem_of_here].
    + apply String.eqb_neq in Hne. now rewrite Hne.
Qed.

Lemma dict_add_mono (key key' : string) (d : nat) (outd : groups) (g : list nat) :
  dict_get key outd = Some g ->
  exists g', dict_get key (dict_add key' d outd) = Some g' /\ g ⊆ g'.
Proof.
  induction outd as [|[k0 g0] outd IH]; simpl; [discriminate |].
  destruct (String.eqb_spec key k0) as [->|Hne].
  - intros [= ->]. destruct (String.eqb_spec key' k0) as [->|Hne']; simpl;
      rewrite String.eqb_refl.
    + exists (g ++ [d]).
      split; [reflexivity | intros x Hx; apply elem_of_app; now left].
    + exists g. split; [reflexivity | done].
  - intros H. destruct (String.eqb key' k0); simpl;
      apply String.eqb_neq in Hne; rewrite Hne; [|now apply IH].
    exists g. split; [exact H | done].
Qed.

(** The loop only adds to the groups. *)
Lemma reparse_loop_mono (k delim : string) (Hd : delim <> "") (l : list nat) :
  forall sigma outd sigma' outd' key g,
    reparse_loop k delim (sigma, outd) l = Ok (sigma', outd') ->
    dict_get key outd = Some g ->
    exists g', dict_get key outd' = Some g' /\ g ⊆ g'.
Proof.
  induction l as [|d l IH]; intros sigma outd sigma' outd' key g H Hg;
    cbn [reparse_loop] in H.
  - simplify_eq. exists g. split; [exact Hg | done].
  - destruct (reparse_step k delim (sigma, outd) d) as [st|] eqn:E;
      cbn [rbind] in H; [|discriminate].
    apply (reparse_step_ok _ _ _ _ _ _ Hd) in E as (r & v & _ & _ & ->).
    destruct (dict_add_mono key (ident delim v) d outd g Hg) as (g1 & Hg1 & Hs1).
    destruct (IH _ _ _ _ _ _ H Hg1) as (g' & Hg' & Hs').
    exists g'. split; [exact Hg' | now transitivity g1].
Qed.

(** What the loop leaves in the store and in the groups. *)
Lemma reparse_loop_inv (k delim : string) (Hd : delim <> "") (l : list nat) :
  forall sigma outd sigma' outd',
    reparse_loop k delim (sigma, outd) l = Ok (sigma', outd') ->
    length sigma' = length sigma /\
    (forall d r, sigma !! d = Some r ->
       sigma' !! d =
       Some (if decide (d ∈ l) then normalise k delim r else r)) /\
    (forall d r, d ∈ l -> sigma !! d = Some r ->
       exists v g, r !! k = Some v /\
         dict_get (ident delim v) outd' = Some g /\ d ∈ g).
Proof.
  induction l as [|d0 l IH]; intros sigma outd sigma' outd' H;
    cbn [reparse_loop] in H.
  - simplify_eq. split; [reflexivity |]. split.
    + intros d r Hr. now rewrite Hr.
    + intros d r Hin. now apply elem_of_nil in Hin.
  - destruct (reparse_step k delim (sigma, outd) d0) as [st|] eqn:E;
      cbn [rbind] in H; [|discriminate].
    apply (reparse_step_ok _ _ _ _ _ _ Hd) in E as (r0 & v0 & Hr0 & Hv0 & ->).
    destruct (IH _ _ _ _ H) as (Hlen & Hst & Hgr).
    assert (Hlt : (d0 < length sigma)%nat) by (eapply lookup_lt_Some; eauto).
    split; [now rewrite Hlen, length_insert |]. split.
    + intros d r Hr. destruct (decide (d = d0)) as [->|Hne].
      * assert (r = r0) as -> by congruence.
        rewrite (Hst d0 (normalise k delim r0))
          by now apply list_lookup_insert_eq.
        rewrite (decide_True (P := d0 ∈ d0 :: l)) by apply list_elem_of_here.
        destruct (decide (d0 ∈ l)); [now rewrite normalise_idem | reflexivity].
      * rewrite (Hst d r) by now rewrite list_lookup_insert_ne.
        destruct (decide (d ∈ l)) as [Hin|Hnin].
        -- now rewrite decide_True by now apply list_elem_of_further.
        -- rewrite decide_False; [reflexivity |].
           intros [?|?]%elem_of_cons; contradiction.
    + intros d r Hin Hr. destruct (decide (d ∈ l)) as [Hl|Hnl].
      * destruct (decide (d = d0)) as [->|Hne].
        -- assert (r = r0) as -> by congruence.
           destruct (Hgr d0 (normalise k delim r0) Hl) as (v & g & Hv & Hg & Hdg);
             [now apply list_lookup_insert_eq |].
           rewrite (normalise_key _ _ _ _ Hv0) in Hv. injection Hv as <-.
           rewrite ident_idem in Hg by exact Hd. now exists v0, g.
        -- apply (Hgr d r Hl). now rewrite list_lookup_insert_ne.
      * assert (d = d0) as -> by (apply elem_of_cons in Hin as [?|?]; done).
        assert (r = r0) as -> by congruence.
        destruct (dict_add_same (ident delim v0) d0 outd) as (g1 & Hg1 & Hd1).
        destruct (reparse_loop_mono k delim Hd l _ _ _ _ _ _ H Hg1)
          as (g' & Hg' & Hs').
        exists v0, g'. split; [exact Hv0 |]. split; [exact Hg' | now apply Hs'].
Qed.

End Aggregator.

(** ** Results and worlds *)

Section Monad.

Lemma rbind_ok {A B} (r : result A) (f : A -> result B) (b : B) :
  rbind r f = Ok b <-> exists x, r = Ok x /\ f x = Ok b.
Proof.
  destruct r as [x|e]; simpl.
  - split; [intros H; now exists x | now intros (? & [= <-] & ?)].
  - split; [discriminate | now intros (? & [=] & ?)].
Qed.

Lemma of_option_ok {A} (e : exn) (o : option A) (x : A) :
  of_option e o = Ok x <-> o = Some x.
Proof. destruct o; simpl; split; congruence. Qed.

Lemma bind_ok {A B} (m : M A) (f : A -> M B) (w w' : world) (x : A) :
  m w = (Ok x, w') -> bind m f w = f x w'.
Proof. intros H. unfold bind. now rewrite H. Qed.

Lemma bind_raise {A B} (m : M A) (f : A -> M B) (w w' : world) (e : exn) :
  m w = (Raise e, w') -> bind m f w = (Raise e, w').
Proof. intros H. unfold bind. now rewrite H. Qed.

Lemma put_nil (w : world) : put [] w = w.
Proof.
  destruct w as [out [| l | l]]; unfold put; simpl; try reflexivity.
  now rewrite app_nil_r.
Qed.

Lemma put_put (l1 l2 : list chunk) (w : world) :
  put l2 (put l1 w) = put (l1 ++ l2) w.
Proof.
  destruct w as [out [| l | l]]; unfold put; simpl; try reflexivity.
  now rewrite app_assoc.
Qed.

Lemma stream_ready_put (a : args) (lines : list chunk) (w : world) :
  stream_ready a w -> stream_ready a (put lines w).
Proof.
  intros H Ha. destruct (H Ha) as [l Hl]. unfold put. simpl. rewrite Hl.
  now eexists.
Qed.

Lemma fwrite_ready (a : args) (c : chunk) (w : world) :
  stream_ready a w -> doSingleOut a = true ->
  fwrite c w = (Ok tt, put [c] w).
Proof.
  intros H Ha. destruct (H Ha) as [l Hl]. unfold fwrite, put. now rewrite Hl.
Qed.

Lemma load_table_eq (fs : files) (path : string) (w : world) :
  load_table fs path w = (table_of fs path, say (diag_of fs path) w).
Proof.
  unfold load_table, table_of, diag_of, say.
  now destruct (read_tsv fs path) as [rows diag].
Qed.

Lemma prepare_eq (a : args) : prepare a world0 = (Ok tt, after_prepare a).
Proof. unfold prepare, after_prepare. now destruct (doSingleOut a). Qed.

Lemma after_prepare_ready (a : args) : stream_ready a (after_prepare a).
Proof. intros H. unfold after_prepare. rewrite H. now eexists. Qed.

Lemma stream_ready_say (a : args) (ps : list printed) (w : world) :
  stream_ready a w -> stream_ready a (say ps w).
Proof. intros H Ha. exact (H Ha). Qed.

(** The run up to the m-value check. *)
Lemma run_eq (X : externals) (a : args) (fs : files) :
  run X a fs =
  match parse_mvalue (fa_mvalue a) with
  | Some m => scoring X a fs m (after_prepare a)
  | None => (Raise (SystemExit mvalue_error), after_prepare a)
  end.
Proof.
  unfold run, main. rewrite (bind_ok _ _ _ _ _ (prepare_eq a)).
  unfold bind, check_mvalue, lift.
  now destruct (parse_mvalue (fa_mvalue a)).
Qed.

End Monad.

(** ** The running minimum *)

Section Minimum.

Lemma update_min_le (sc m : Q) : (update_min sc m <= m)%Q.
Proof.
  unfold update_min. destruct (Qle_bool sc m) eqn:E.
  - now apply Qle_bool_iff.
  - apply Qle_refl.
Qed.

Lemma update_min_le_score (sc m : Q) : (update_min sc m <= sc)%Q.
Proof.
  unfold update_min. destruct (Qle_bool sc m) eqn:E.
  - apply Qle_refl.
  - apply Qlt_le_weak, Qnot_le_lt. intros H%Qle_bool_iff. congruence.
Qed.

Lemma update_min_take (sc m : Q) : (sc <= m)%Q -> update_min sc m = sc.
Proof. intros H%Qle_bool_iff. unfold update_min. now rewrite H. Qed.

Lemma running_min_le_seed (l : list Q) :
  forall m, (running_min m l <= m)%Q.
Proof.
  induction l as [|x l IH]; intros m; simpl.
  - apply Qle_refl.
  - eapply Qle_trans; [apply IH | apply update_min_le].
Qed.

Lemma running_min_lower (l : list Q) :
  forall m, Forall (fun x => (running_min m l <= x)%Q) l.
Proof.
  induction l as [|x l IH]; intros m; simpl; constructor.
  - eapply Qle_trans; [apply running_min_le_seed | apply update_min_le_score].
  - apply IH.
Qed.

(** The accumulator is one of the scores as soon as one of them is at most
    the seed. *)
Lemma running_min_in (l : list Q) :
  forall m, In (running_min m l) l \/
            (running_min m l = m /\ Forall (fun x => ~ (x <= m)%Q) l).
Proof.
  induction l as [|x l IH]; intros m.
  - right. now split.
  - change (running_min m (x :: l)) with (running_min (update_min x m) l).
    destruct (Qle_bool x m) eqn:E.
    + assert (Hu : update_min x m = x) by (unfold update_min; now rewrite E).
      rewrite Hu. destruct (IH x) as [H | [H _]]; left.
      * now right.
      * left. now rewrite H.
    + assert (Hu : update_min x m = m) by (unfold update_min; now rewrite E).
      rewrite Hu. destruct (IH m) as [H | [H HF]]; [left; now right |].
      right. split; [exact H |]. constructor; [|exact HF].
      intros Hle%Qle_bool_iff. congruence.
Qed.

Lemma running_min_is_min (l : list Q) (m : Q) :
  l <> [] -> Forall (fun x => (x <= m)%Q) l -> is_min (running_min m l) l.
Proof.
  intros Hne Hle. split; [|apply running_min_lower].
  destruct (running_min_in l m) as [H | [_ HF]]; [exact H |].
  destruct l as [|x l]; [contradiction |].
  apply Forall_cons in Hle as [Hx _]. apply Forall_cons in HF as [Hnx _].
  contradiction.
Qed.

Lemma running_min_snoc (l : list Q) (m x : Q) :
  running_min m (l ++ [x]) = update_min x (running_min m l).
Proof. unfold running_min. now rewrite foldl_app. Qed.

(** The accumulator never goes up from one probe to the next. *)
Lemma running_min_step (l : list Q) (m : Q) (n : nat) :
  (running_min m (take (S n) l) <= running_min m (take n l))%Q.
Proof.
  destruct (l !! n) as [x|] eqn:E.
  - rewrite (take_S_r l n x E), running_min_snoc. apply update_min_le.
  - apply lookup_ge_None in E.
    rewrite !take_ge by lia. apply Qle_refl.
Qed.

(** A score built from fractions in [0,1] is in [0,1]. *)
Lemma combine_range (sf tf : Q) :
  (0 <= sf /\ sf <= 1)%Q -> (0 <= tf /\ tf <= 1)%Q ->
  (0 <= score (combine sf tf) /\ score (combine sf tf) <= 1)%Q.
Proof. simpl. intros [H1 H2] [H3 H4]. split; nra. Qed.

End Minimum.

(** ** The probe loop *)

Section Loop.

Variable X : externals.
Variable a : args.
Variable mv : Q -> result Q.
Variables t s : table.

Lemma sample0_ok (c : curve) (q : Q) :
  sample0 c = Ok q <-> exists p, c !! 0%nat = Some p /\ q = snd p.
Proof.
  unfold sample0. rewrite <- head_lookup. destruct (head c) as [p|]; simpl.
  - split; [intros [= <-]; now exists p | now intros (? & [= <-] & ->)].
  - split; [discriminate | now intros (? & [=] & _)].
Qed.

Lemma probe_ok (name : string) (v : locals) :
  probe X a mv t s name = Ok v <->
  exists tf sf,
    target_fraction X a mv t name = Ok tf /\
    second_fraction X a s name = Ok sf /\ v = combine sf tf.
Proof.
  unfold probe. split.
  - intros (tf & Htf & (sf & Hsf & [= <-])%rbind_ok)%rbind_ok. now exists tf, sf.
  - intros (tf & sf & -> & -> & ->). reflexivity.
Qed.

(** The call of the single-strand evaluator and what is read from it. *)
Lemma second_fraction_ok (name : string) (sf : Q) :
  second_fraction X a s name = Ok sf <->
  exists h e H E stemp c p,
    field_of s name "dH" = Ok h /\ float X h = Ok H /\
    field_of s name "dS" = Ok e /\ float X e = Ok E /\
    ssMelt_fa_adj X (arg_t a + kelvin) 0 (faconc a) = Ok stemp /\
    ssMelt_curve X H (E / 1000) stemp (faconc a) 0 step = Ok c /\
    c !! 0%nat = Some p /\ sf = snd p.
Proof.
  unfold second_fraction. split.
  - intros (h & Hh & (H & HH & (e & He & (E & HE & (stemp & Hst &
      (c & Hc & (p & Hp & ->)%sample0_ok)%rbind_ok)%rbind_ok)%rbind_ok)
      %rbind_ok)%rbind_ok)%rbind_ok.
    now exists h, e, H, E, stemp, c, p.
  - intros (h & e & H & E & stemp & c & p & Hh & HH & He & HE & Hst & Hc & Hp & ->).
    rewrite Hh. simpl. rewrite HH. simpl. rewrite He. simpl. rewrite HE.
    simpl. rewrite Hst. simpl. rewrite Hc. simpl.
    apply sample0_ok. now exists p.
Qed.

(** The call of the duplex evaluator and what is read from it. *)
Lemma target_fraction_curve (name : string) (tf : Q) :
  target_fraction X a mv t name = Ok tf ->
  exists seq fgc tdh tds ttemp c p,
    duMelt_curve X seq (arg_o a) (naconc a) (mgconc a) (faconc a)
      (arg_fa_mode a) mv fgc tdh tds ttemp 0 step (arg_d a) = Ok c /\
    c !! 0%nat = Some p /\ tf = snd p.
Proof.
  unfold target_fraction.
  intros (h & _ & (tdh & _ & (e & _ & (tds & _ & (sq & _ & (fgc & _ &
    (t1 & _ & (ttemp & _ & (c & Hc & (p & Hp & ->)%sample0_ok)%rbind_ok)
    %rbind_ok)%rbind_ok)%rbind_ok)%rbind_ok)%rbind_ok)%rbind_ok)%rbind_ok)
    %rbind_ok.
  now exists (PyStr.upper sq), fgc, tdh, tds, ttemp, c, p.
Qed.

(** Under the contract of the curve evaluators, every score is in [0,1]. *)
Lemma probe_range (name : string) (v : locals) :
  curves_in_range X -> probe X a mv t s name = Ok v ->
  (0 <= score v /\ score v <= 1)%Q.
Proof.
  intros [Hdu Hss] (tf & sf & Htf & Hsf & ->)%probe_ok.
  apply target_fraction_curve in Htf as (? & ? & ? & ? & ? & c1 & p1 & Hc1 & Hp1 & ->).
  apply second_fraction_ok in Hsf
    as (? & ? & ? & ? & ? & c2 & p2 & _ & _ & _ & _ & _ & Hc2 & Hp2 & ->).
  rewrite <- head_lookup in Hp1, Hp2.
  apply combine_range.
  - exact (Hss _ _ _ _ _ _ _ Hc2 _ Hp2).
  - exact (Hdu _ _ _ _ _ _ _ _ _ _ _ _ _ _ _ Hc1 _ Hp1).
Qed.

Lemma lines_of_cons (k : string) (keys : list string) (sc : Q) (scores : list Q) :
  lines_of a (k :: keys) (sc :: scores) =
  lines_of a [k] [sc] ++ lines_of a keys scores.
Proof. unfold lines_of. now destruct (doSingleOut a). Qed.

Lemma lines_of_nil (scores : list Q) : lines_of a [] scores = [].
Proof. unfold lines_of. now destruct (doSingleOut a). Qed.

(** A turn whose probe is scored. *)
Lemma turn_ok (m : Q) (name : string) (w : world) (v : locals) :
  stream_ready a w -> probe X a mv t s name = Ok v ->
  turn X a mv t s m name w =
  (Ok (update_min (score v) m), put (lines_of a [name] [score v]) w).
Proof.
  intros Hw Hv. unfold turn, bind, lift, lines_of. rewrite Hv.
  destruct (doSingleOut a) eqn:Ha.
  - rewrite (fwrite_ready a _ w Hw Ha). reflexivity.
  - unfold ret. now rewrite put_nil.
Qed.

(** A turn whose probe raises. *)
Lemma turn_raise (m : Q) (name : string) (w : world) (e : exn) :
  probe X a mv t s name = Raise e ->
  turn X a mv t s m name w = (Raise e, w).
Proof. intros Hv. unfold turn, bind, lift. now rewrite Hv. Qed.

(** The loop when every probe is scored. *)
Lemma score_loop_ok (keys : list string) (scores : list Q) :
  scored X a mv t s keys scores ->
  forall m w, stream_ready a w ->
    score_loop X a mv t s m keys w =
    (Ok (running_min m scores), put (lines_of a keys scores) w).
Proof.
  induction 1 as [|k sc keys scores (v & Hv & <-) _ IH]; intros m w Hw.
  - simpl. unfold ret. now rewrite lines_of_nil, put_nil.
  - cbn [score_loop]. rewrite (bind_ok _ _ _ _ _ (turn_ok m k w v Hw Hv)).
    rewrite IH by now apply stream_ready_put.
    now rewrite put_put, <- lines_of_cons.
Qed.

(** The loop when a probe raises after others were scored. *)
Lemma score_loop_raise (pre : list string) (scores : list Q) (p : string)
    (post : list string) (e : exn) :
  scored X a mv t s pre scores ->
  probe X a mv t s p = Raise e ->
  forall m w, stream_ready a w ->
    score_loop X a mv t s m (pre ++ p :: post) w =
    (Raise e, put (lines_of a pre scores) w).
Proof.
  intros Hpre Hp.
  induction Hpre as [|k sc keys scores (v & Hv & <-) _ IH]; intros m w Hw.
  - cbn [app score_loop].
    rewrite (bind_raise _ _ _ _ _ (turn_raise m p w e Hp)).
    now rewrite lines_of_nil, put_nil.
  - cbn [app score_loop]. rewrite (bind_ok _ _ _ _ _ (turn_ok m k w v Hw Hv)).
    rewrite IH by now apply stream_ready_put.
    now rewrite put_put, <- lines_of_cons.
Qed.

(** A loop that ends normally has scored every probe. *)
Lemma score_loop_inv (keys : list string) :
  forall m w v w', stream_ready a w ->
    score_loop X a mv t s m keys w = (Ok v, w') ->
    exists scores, scored X a mv t s keys scores /\
      v = running_min m scores /\ w' = put (lines_of a keys scores) w.
Proof.
  induction keys as [|k keys IH]; intros m w v w' Hw H.
  - injection H as <- <-. exists []. split; [constructor |].
    now rewrite lines_of_nil, put_nil.
  - cbn [score_loop] in H.
    destruct (probe X a mv t s k) as [l|e] eqn:Hk.
    + rewrite (bind_ok _ _ _ _ _ (turn_ok m k w l Hw Hk)) in H.
      apply IH in H as (scores & Hs & -> & ->); [|now apply stream_ready_put].
      exists (score l :: scores). split; [constructor; eauto |].
      now rewrite put_put, <- lines_of_cons.
    + rewrite (bind_raise _ _ _ _ _ (turn_raise m k w e Hk)) in H. discriminate.
Qed.




(** Scores of probes that are all scored are in [0,1] under the contract. *)
Lemma scored_range (keys : list string) (scores : list Q) :
  curves_in_range X -> scored X a mv t s keys scores ->
  Forall (fun x => (x <= 1)%Q) scores.
Proof.
  intros HX. induction 1 as [|k sc keys scores (v & Hv & <-) _ IH];
    constructor; [|exact IH].
  exact (proj2 (probe_range k v HX Hv)).
Qed.

End Loop.

(** ** The run after the m-value check *)

Section Scoring.

Variable X : externals.
Variable a : args.
Variable fs : files.

Lemma finish_eq (p : printed) (w : world) :
  bind (if doSingleOut a then fclose else ret tt) (fun _ => print p) w =
  (Ok tt, say [p] (shut a w)).
Proof. unfold bind, shut, say, print. now destruct (doSingleOut a). Qed.

(** The run once both tables are loaded. *)
Lemma scoring_eq (m : mvalue_t) (t s : table) (w : world) :
  table_of fs (target_tsv a) = Ok t ->
  table_of fs (second_tsv a) = Ok s ->
  scoring X a fs m w =
  match
    score_loop X a (mvalue X m) t s 1 (dict_keys (snd t))
      (say (diag_of fs (second_tsv a)) (say (diag_of fs (target_tsv a)) w))
  with
  | (Ok v, w') => (Ok tt, say [PNum v] (shut a w'))
  | (Raise e, w') => (Raise e, w')
  end.
Proof.
  intros Ht Hs. unfold scoring.
  rewrite (bind_ok _ _ w _ t) by now rewrite load_table_eq, Ht.
  rewrite (bind_ok _ _ _ _ s) by now rewrite load_table_eq, Hs.
  unfold bind at 1.
  destruct (score_loop _ _ _ _ _ _ _ _) as [[v|e] w']; [|reflexivity].
  apply finish_eq.
Qed.

(** The reader prints no number. *)
Lemma read_rows_diag (path : string) (lines : list string) :
  forall first_row out, omap number_of (snd (read_rows path first_row out lines)) = [].
Proof.
  induction lines as [|ln lines IH]; intros first_row out; simpl;
    [reflexivity |].
  destruct (length first_row =? 0)%nat; [apply IH |].
  destruct (negb _); [reflexivity | apply IH].
Qed.

Lemma diag_of_numbers (path : string) : omap number_of (diag_of fs path) = [].
Proof.
  unfold diag_of, read_tsv. destruct (fs path); [|reflexivity].
  apply read_rows_diag.
Qed.

Lemma loop_start_ready : stream_ready a (loop_start a fs).
Proof. unfold loop_start. do 2 apply stream_ready_say. apply after_prepare_ready. Qed.

Lemma loop_start_numbers (lines : list chunk) :
  printed_numbers (put lines (loop_start a fs)) = [].
Proof.
  unfold printed_numbers, put, loop_start, say. simpl.
  now rewrite !omap_app, !diag_of_numbers.
Qed.



(** A table that fails to load ends the run. *)
Lemma scoring_no_target (m : mvalue_t) (e : exn) (w : world) :
  table_of fs (target_tsv a) = Raise e ->
  fst (scoring X a fs m w) = Raise e.
Proof.
  intros Ht. unfold scoring.
  now rewrite (bind_raise _ _ w (say (diag_of fs (target_tsv a)) w) e)
    by now rewrite load_table_eq, Ht.
Qed.

Lemma scoring_no_second (m : mvalue_t) (t : table) (e : exn) (w : world) :
  table_of fs (target_tsv a) = Ok t ->
  table_of fs (second_tsv a) = Raise e ->
  fst (scoring X a fs m w) = Raise e.
Proof.
  intros Ht Hs. unfold scoring.
  rewrite (bind_ok _ _ w _ t) by now rewrite load_table_eq, Ht.
  now rewrite (bind_raise _ _ _
                 (say (diag_of fs (second_tsv a))
                    (say (diag_of fs (target_tsv a)) w)) e)
    by now rewrite load_table_eq, Hs.
Qed.

(** A run that ends normally has parsed the m-value, loaded both tables
    and scored every probe of the target table. *)
Lemma run_ok_inv :
  fst (run X a fs) = Ok tt ->
  exists m t s scores,
    parse_mvalue (fa_mvalue a) = Some m /\
    table_of fs (target_tsv a) = Ok t /\
    table_of fs (second_tsv a) = Ok s /\
    scored X a (mvalue X m) t s (dict_keys (snd t)) scores.
Proof.
  rewrite run_eq. destruct (parse_mvalue (fa_mvalue a)) as [m|] eqn:Hm;
    [|discriminate].
  destruct (table_of fs (target_tsv a)) as [t|e] eqn:Ht.
  2:{ rewrite (scoring_no_target m e _ Ht). discriminate. }
  destruct (table_of fs (second_tsv a)) as [s|e] eqn:Hs.
  2:{ rewrite (scoring_no_second m t e _ Ht Hs). discriminate. }
  rewrite (scoring_eq m t s _ Ht Hs). fold (loop_start a fs).
  destruct (score_loop X a (mvalue X m) t s 1 (dict_keys (snd t))
              (loop_start a fs)) as [[v|e] w'] eqn:E; [|discriminate].
  intros _.
  apply score_loop_inv in E as (scores & Hsc & _); [|apply loop_start_ready].
  now exists m, t, s, scores.
Qed.

End Scoring.

(** ** The secondary lookup *)

Section Lookup.

Variable X : externals.
Variable a : args.



End Lookup.

(** * The claims *)

(** C1. A run ends normally exactly when the m-value is parsed, both
    tables are loaded and every probe of the target table is scored.  It then
    prints exactly one number: the running minimum of the scores seeded at
    1.  That number is 1 when no probe is scored and, under the contract of
    the curve evaluators (fractions in [0,1]), the least of the scores
    otherwise.  The accumulator never increases from one probe to the next,
    and a score at most the accumulator replaces it. *)
Theorem reported_minimum (X : externals) (a : args) (fs : files) :
  curves_in_range X ->
  (fst (run X a fs) = Ok tt ->
   exists m t s scores,
     parse_mvalue (fa_mvalue a) = Some m /\
     table_of fs (target_tsv a) = Ok t /\
     table_of fs (second_tsv a) = Ok s /\
     scored X a (mvalue X m) t s (dict_keys (snd t)) scores) /\
  (forall m t s scores,
     parse_mvalue (fa_mvalue a) = Some m ->
     table_of fs (target_tsv a) = Ok t ->
     table_of fs (second_tsv a) = Ok s ->
     scored X a (mvalue X m) t s (dict_keys (snd t)) scores ->
     fst (run X a fs) = Ok tt /\
     printed_numbers (snd (run X a fs)) = [running_min 1 scores] /\
     (scores = [] -> running_min 1 scores = 1%Q) /\
     (scores <> [] -> is_min (running_min 1 scores) scores) /\
     (forall n, (running_min 1 (take (S n) scores)
                 <= running_min 1 (take n scores))%Q) /\
     (forall sc acc, (sc <= acc)%Q -> update_min sc acc = sc)).
Proof.
  intros HX. split; [apply run_ok_inv |].
  intros m t s scores Hm Ht Hs Hsc.
  rewrite run_eq, Hm, (scoring_eq X a fs m t s _ Ht Hs).
  fold (loop_start a fs).
  rewrite (score_loop_ok X a _ t s _ _ Hsc 1 _ (loop_start_ready a fs)).
  cbn [fst snd]. split; [reflexivity |]. split.
  - unfold printed_numbers. cbn [say stdout]. rewrite omap_app.
    assert (Hst : stdout (shut a (put (lines_of a (dict_keys (snd t)) scores)
                                    (loop_start a fs))) =
                  stdout (put (lines_of a (dict_keys (snd t)) scores)
                            (loop_start a fs)))
      by (unfold shut; now destruct (doSingleOut a)).
    rewrite Hst. fold (printed_numbers (put (lines_of a (dict_keys (snd t)) scores)
                                          (loop_start a fs))).
    now rewrite loop_start_numbers.
  - split; [now intros -> |]. split.
    + intros Hne. apply running_min_is_min; [exact Hne |].
      exact (scored_range X a _ t s _ _ HX Hsc).
    + split; [apply running_min_step | apply update_min_take].
Qed.


(** C8. The unfolded fraction of a probe is read from the first sample
    (index 0, fraction component) of the curve returned by the single-strand
    evaluator, called with the enthalpy of the secondary table as it is and
    with its entropy divided by 1000; it is the value the scoring block
    takes as [unfold]. *)
Theorem single_strand_call (X : externals) (a : args) (s : table)
    (name : string) (sf : Q) :
  (second_fraction X a s name = Ok sf <->
   exists h e H E stemp c p,
     field_of s name "dH" = Ok h /\ float X h = Ok H /\
     field_of s name "dS" = Ok e /\ float X e = Ok E /\
     ssMelt_fa_adj X (arg_t a + kelvin) 0 (faconc a) = Ok stemp /\
     ssMelt_curve X H (E / 1000) stemp (faconc a) 0 step = Ok c /\
     c !! 0%nat = Some p /\ sf = snd p) /\
  (forall mv t v, probe X a mv t s name = Ok v ->
     second_fraction X a s name = Ok (unfold v)).
Proof.
  split; [apply second_fraction_ok |].
  intros mv t v (tf & sf' & _ & Hsf & ->)%probe_ok. exact Hsf.
Qed.



(** C4 as amended. When the m-value text is malformed the run ends with the
    usage error before any table is read, any probe scored or anything
    printed; the output stream, when one was asked for, has by then been
    opened and has received the header line, and nothing else. *)
Theorem malformed_mvalue_output (X : externals) (a : args) (fs : files) :
  parse_mvalue (fa_mvalue a) = None ->
  run X a fs =
  (Raise (SystemExit mvalue_error),
   World [] (if doSingleOut a then Opened [WText header] else NotOpened)).
Proof. intros H. now rewrite run_eq, H. Qed.

(** C5 as amended. The first line of the file, empty or not, gives the
    field names: it is stripped and split on TAB, which always yields at
    least one name (the empty name for an empty line).  Every later line is
    stripped and split on blanks, and is a data line. *)
Theorem first_line_is_header (fs : files) (path first : string)
    (rest : list string) :
  fs path = Some (first :: rest) ->
  header_of first <> [] /\
  (PyStr.strip first = "" -> header_of first = [""]) /\
  read_tsv fs path =
  if forallb (fits (header_of first)) rest
  then (map (fun l => fill_row ∅ (header_of first) (tokens l)) rest, [])
  else ([], [PStr (column_error path)]).
Proof.
  intros H. split; [apply header_of_nonempty |]. split.
  - intros Hs. unfold header_of. now rewrite Hs.
  - now apply read_tsv_lines.
Qed.

(** C6. When a data line has a number of tokens other than the number of
    field names, the reader prints the diagnostic and returns the empty
    list: the rows read before that line are dropped with it. *)
Theorem column_mismatch_discards_table (fs : files) (path first : string)
    (rest : list string) :
  fs path = Some (first :: rest) ->
  Exists (fun l => length (tokens l) <> length (header_of first)) rest ->
  read_tsv fs path = ([], [PStr (column_error path)]).
Proof.
  intros H Hex. rewrite (read_tsv_lines fs path first rest H).
  now rewrite (forallb_fits_false _ _ Hex).
Qed.

(** C7. After the aggregator, every row it went over is in the group of
    the identifier of its key value: the value itself when it holds no
    delimiter, and otherwise the text before the first occurrence of the
    delimiter.  Rows with the same identifier are thus in the same group. *)
Theorem truncated_identifier_groups (sigma : store) (l : list nat)
    (k delim : string) (sigma' : store) (outd : groups) :
  delim <> "" ->
  reparse_tsv_list sigma l k delim = Ok (sigma', outd) ->
  forall d r, d ∈ l -> sigma !! d = Some r ->
    exists v g,
      r !! k = Some v /\
      dict_get (ident delim v) outd = Some g /\ d ∈ g /\
      (PyStr.contains delim v = false -> ident delim v = v) /\
      (PyStr.contains delim v = true ->
         (exists rest,
            v = String.append (ident delim v) (String.append delim rest)) /\
         (forall u w, v = String.append u (String.append delim w) ->
            (String.length (ident delim v) <= String.length u)%nat)).
Proof.
  intros Hd H d r Hin Hr. unfold reparse_tsv_list in H.
  destruct (reparse_loop_inv k delim Hd l _ _ _ _ H) as (_ & _ & Hgr).
  destruct (Hgr d r Hin Hr) as (v & g & Hv & Hg & Hdg).
  exists v, g. split; [exact Hv |]. split; [exact Hg |]. split; [exact Hdg |].
  split.
  - intros Hc. unfold ident. now rewrite Hc.
  - intros Hc. unfold ident. rewrite Hc. split.
    + now apply before_delim.
    + intros u w ->. apply before_first.
Qed.

(** C9 as amended. The aggregator changes row objects in place, and only
    their key field: a row it goes over gets the identifier of its key value
    as its new key value (the same text when it holds no delimiter); its
    other fields, and the rows it does not go over, stay as they were read. *)
Theorem aggregator_frame (sigma : store) (l : list nat) (k delim : string)
    (sigma' : store) (outd : groups) :
  delim <> "" ->
  reparse_tsv_list sigma l k delim = Ok (sigma', outd) ->
  length sigma' = length sigma /\
  forall d r, sigma !! d = Some r ->
    exists r', sigma' !! d = Some r' /\
      (forall f, f <> k -> r' !! f = r !! f) /\
      (d ∉ l -> r' = r) /\
      (forall v, d ∈ l -> r !! k = Some v -> r' !! k = Some (ident delim v)) /\
      (forall v, r !! k = Some v -> PyStr.contains delim v = false -> r' = r).
Proof.
  intros Hd H. unfold reparse_tsv_list in H.
  destruct (reparse_loop_inv k delim Hd l _ _ _ _ H) as (Hlen & Hst & _).
  split; [exact Hlen |]. intros d r Hr. rewrite (Hst d r Hr).
  destruct (decide (d ∈ l)) as [Hin|Hnin].
  - exists (normalise k delim r). split; [reflexivity |]. repeat split.
    + intros f Hf. now apply normalise_other.
    + intros Hn. contradiction.
    + intros v _ Hv. now apply normalise_key.
    + intros v Hv Hc. unfold normalise, ident. rewrite Hv, Hc.
      now apply insert_id.
  - exists r. split; [reflexivity |]. repeat split; try reflexivity.
    intros v Hn. contradiction.
Qed.

(** * Counterexamples and instances *)

Section Instances.

Import Sample.

Lemma lib_in_range : curves_in_range lib.
Proof.
  split.
  - intros seq oc na mg fa fm mv fgc dh ds t z st d c [= <-] p [= <-]. simpl.
    destruct (String.length seq <=? 4)%nat; split; discriminate.
  - intros dh ds t fa z st c [= <-] p [= <-]. simpl. split; discriminate.
Qed.


(** C4, counterexample: with a malformed m-value and an output path, the
    header line has been written when the run ends. *)
Lemma header_written_before_mvalue_check :
  parse_mvalue "xyz" = None /\
  run lib (cmd "second.tsv" "xyz" (Some "scores.tsv")) disk =
  (Raise (SystemExit mvalue_error), World [] (Opened [WText header])) /\
  written (snd (run lib (cmd "second.tsv" "xyz" (Some "scores.tsv")) disk))
  <> [].
Proof. repeat split; try (vm_compute; reflexivity). vm_compute. discriminate. Qed.

(** C5, counterexample: an empty first line is the header.  A file made of
    an empty line and the line x gives one row, binding the empty name to x;
    a file whose header comes after an empty line is discarded. *)
Lemma empty_first_line_is_header :
  disk "blank.tsv" = Some [""; "x"] /\
  read_tsv disk "blank.tsv" = ([ {[ "" := "x" ]} ], []) /\
  disk "late.tsv" = Some [""; line ["a"; "b"]; "1 2"] /\
  read_tsv disk "late.tsv" = ([], [PStr (column_error "late.tsv")]).
Proof. repeat split; vm_compute; reflexivity. Qed.

(** C9, counterexample: the row read with key value probe1,v2 holds the key
    value probe1 once the table is aggregated. *)
Lemma aggregator_rewrites_key :
  disk "probe.tsv" = Some ["oligo_name"; "probe1,v2"] /\
  fst (read_tsv disk "probe.tsv") = [ {[ "oligo_name" := "probe1,v2" ]} ] /\
  table_of disk "probe.tsv" =
  Ok ([ {[ "oligo_name" := "probe1" ]} ], [("probe1", [0%nat])]).
Proof. repeat split; vm_compute; reflexivity. Qed.


(** Instance of C1: the two probes of the sample tables. *)
Lemma reported_minimum_witness :
  curves_in_range lib /\
  parse_mvalue "0.1734" = Some (Constant "0.1734") /\
  table_of disk "target.tsv" = Ok (loaded "target.tsv") /\
  table_of disk "second.tsv" = Ok (loaded "second.tsv") /\
  scored lib (cmd "second.tsv" "0.1734" (Some "scores.tsv"))
    (mvalue lib (Constant "0.1734")) (loaded "target.tsv")
    (loaded "second.tsv") ["p1"; "p2"] [0.375%Q; 0.25%Q] /\
  printed_numbers
    (snd (run lib (cmd "second.tsv" "0.1734" (Some "scores.tsv")) disk)) =
  [running_min 1 [0.375%Q; 0.25%Q]] /\
  is_min (running_min 1 [0.375%Q; 0.25%Q]) [0.375%Q; 0.25%Q].
Proof.
  assert (H1 : parse_mvalue "0.1734" = Some (Constant "0.1734"))
    by (vm_compute; reflexivity).
  assert (H2 : table_of disk "target.tsv" = Ok (loaded "target.tsv"))
    by (vm_compute; reflexivity).
  assert (H3 : table_of disk "second.tsv" = Ok (loaded "second.tsv"))
    by (vm_compute; reflexivity).
  assert (H4 : scored lib (cmd "second.tsv" "0.1734" (Some "scores.tsv"))
                 (mvalue lib (Constant "0.1734")) (loaded "target.tsv")
                 (loaded "second.tsv") ["p1"; "p2"] [0.375%Q; 0.25%Q]).
  { repeat constructor.
    - exists (combine 0.5 0.25). split; vm_compute; reflexivity.
    - exists (combine 0.5 0.5). split; vm_compute; reflexivity. }
  split; [exact lib_in_range |]. split; [exact H1 |]. split; [exact H2 |].
  split; [exact H3 |]. split; [exact H4 |].
  destruct (proj2 (reported_minimum lib
                     (cmd "second.tsv" "0.1734" (Some "scores.tsv")) disk
                     lib_in_range)
              (Constant "0.1734") (loaded "target.tsv")
              (loaded "second.tsv") [0.375%Q; 0.25%Q] H1 H2 H3 H4)
    as (_ & Hp & _ & Hmin & _).
  split; [exact Hp | apply Hmin; discriminate].
Defined.



(** Instance of C4: a malformed m-value with an output path. *)
Lemma malformed_mvalue_output_witness :
  parse_mvalue "xyz" = None /\
  run lib (cmd "second.tsv" "xyz" (Some "scores.tsv")) disk =
  (Raise (SystemExit mvalue_error), World [] (Opened [WText header])).
Proof.
  assert (H : parse_mvalue "xyz" = None) by reflexivity.
  split; [exact H |].
  exact (malformed_mvalue_output lib
           (cmd "second.tsv" "xyz" (Some "scores.tsv")) disk H).
Defined.

(** Instance of C5: a file that starts with an empty line. *)
Lemma first_line_is_header_witness :
  disk "blank.tsv" = Some ["" ; "x"] /\
  header_of "" <> [] /\
  (PyStr.strip "" = "" -> header_of "" = [""]) /\
  read_tsv disk "blank.tsv" =
  if forallb (fits (header_of "")) ["x"]
  then (map (fun l => fill_row ∅ (header_of "") (tokens l)) ["x"], [])
  else ([], [PStr (column_error "blank.tsv")]).
Proof.
  assert (H : disk "blank.tsv" = Some ["" ; "x"]) by reflexivity.
  split; [exact H |].
  exact (first_line_is_header disk "blank.tsv" "" ["x"] H).
Defined.

(** Instance of C6: a header of two fields, a row of two tokens and a row
    of three. *)
Lemma column_mismatch_discards_table_witness :
  disk "wide.tsv" = Some [line ["a"; "b"]; "1 2"; "1 2 3"] /\
  Exists (fun l => length (tokens l) <> length (header_of (line ["a"; "b"])))
    ["1 2"; "1 2 3"] /\
  read_tsv disk "wide.tsv" = ([], [PStr (column_error "wide.tsv")]).
Proof.
  assert (H1 : disk "wide.tsv" = Some [line ["a"; "b"]; "1 2"; "1 2 3"])
    by reflexivity.
  assert (H2 : Exists
                 (fun l => length (tokens l) <>
                           length (header_of (line ["a"; "b"])))
                 ["1 2"; "1 2 3"]).
  { apply Exists_cons_tl, Exists_cons_hd. vm_compute. discriminate. }
  split; [exact H1 |]. split; [exact H2 |].
  exact (column_mismatch_discards_table disk "wide.tsv" _ _ H1 H2).
Defined.

(** Instance of C7: the key value probe1,v2 with the delimiter used by the
    script. *)
Lemma truncated_identifier_groups_witness :
  "," <> "" /\
  reparse_tsv_list two_rows [0; 1]%nat "oligo_name" "," =
  Ok (two_rows_after, [("probe1", [0; 1]%nat)]) /\
  0%nat ∈ [0; 1]%nat /\
  two_rows !! 0%nat = Some {[ "oligo_name" := "probe1,v2"; "dH" := "-80" ]} /\
  ident "," "probe1,v2" = "probe1" /\
  exists v g,
    ({[ "oligo_name" := "probe1,v2"; "dH" := "-80" ]} : row) !! "oligo_name"
    = Some v /\
    dict_get (ident "," v) [("probe1", [0; 1]%nat)] = Some g /\ 0%nat ∈ g /\
    (PyStr.contains "," v = false -> ident "," v = v) /\
    (PyStr.contains "," v = true ->
       (exists rest,
          v = String.append (ident "," v) (String.append "," rest)) /\
       (forall u w, v = String.append u (String.append "," w) ->
          (String.length (ident "," v) <= String.length u)%nat)).
Proof.
  assert (H1 : "," <> "") by discriminate.
  assert (H2 : reparse_tsv_list two_rows [0; 1]%nat "oligo_name" "," =
               Ok (two_rows_after, [("probe1", [0; 1]%nat)]))
    by (vm_compute; reflexivity).
  assert (H3 : 0%nat ∈ [0; 1]%nat) by apply list_elem_of_here.
  assert (H4 : two_rows !! 0%nat =
               Some {[ "oligo_name" := "probe1,v2"; "dH" := "-80" ]})
    by reflexivity.
  split; [exact H1 |]. split; [exact H2 |]. split; [exact H3 |].
  split; [exact H4 |]. split; [reflexivity |].
  exact (truncated_identifier_groups two_rows [0; 1]%nat "oligo_name" ","
           two_rows_after _ H1 H2 0%nat _ H3 H4).
Defined.

(** Instance of C8: the probe p1 of the sample secondary table. *)
Lemma single_strand_call_witness :
  (exists h e H E stemp c p,
     field_of (loaded "second.tsv") "p1" "dH" = Ok h /\ float lib h = Ok H /\
     field_of (loaded "second.tsv") "p1" "dS" = Ok e /\ float lib e = Ok E /\
     ssMelt_fa_adj lib (37 + kelvin) 0 35 = Ok stemp /\
     ssMelt_curve lib H (E / 1000) stemp 35 0 step = Ok c /\
     c !! 0%nat = Some p /\ 0.5%Q = snd p) /\
  second_fraction lib (cmd "second.tsv" "0.1734" None) (loaded "second.tsv")
    "p1" = Ok 0.5%Q.
Proof.
  assert (H : exists h e H E stemp c p,
     field_of (loaded "second.tsv") "p1" "dH" = Ok h /\ float lib h = Ok H /\
     field_of (loaded "second.tsv") "p1" "dS" = Ok e /\ float lib e = Ok E /\
     ssMelt_fa_adj lib (37 + kelvin) 0 35 = Ok stemp /\
     ssMelt_curve lib H (E / 1000) stemp 35 0 step = Ok c /\
     c !! 0%nat = Some p /\ 0.5%Q = snd p).
  { exists "-20", "-50", (-20)%Q, (-50)%Q, (37 + kelvin)%Q,
      [((37 + kelvin)%Q, 0.5%Q)], ((37 + kelvin)%Q, 0.5%Q).
    repeat split; vm_compute; reflexivity. }
  split; [exact H |].
  exact (proj2 (proj1 (single_strand_call lib (cmd "second.tsv" "0.1734" None)
                         (loaded "second.tsv") "p1" 0.5%Q)) H).
Defined.

(** Instance of C9: two row objects, the first with a compound key. *)
Lemma aggregator_frame_witness :
  "," <> "" /\
  reparse_tsv_list two_rows [0; 1]%nat "oligo_name" "," =
  Ok (two_rows_after, [("probe1", [0; 1]%nat)]) /\
  length two_rows_after = length two_rows /\
  forall d r, two_rows !! d = Some r ->
    exists r', two_rows_after !! d = Some r' /\
      (forall f, f <> "oligo_name" -> r' !! f = r !! f) /\
      (d ∉ [0; 1]%nat -> r' = r) /\
      (forall v, d ∈ [0; 1]%nat -> r !! "oligo_name" = Some v ->
         r' !! "oligo_name" = Some (ident "," v)) /\
      (forall v, r !! "oligo_name" = Some v ->
         PyStr.contains "," v = false -> r' = r).
Proof.
  assert (H1 : "," <> "") by discriminate.
  assert (H2 : reparse_tsv_list two_rows [0; 1]%nat "oligo_name" "," =
               Ok (two_rows_after, [("probe1", [0; 1]%nat)]))
    by (vm_compute; reflexivity).
  split; [exact H1 |]. split; [exact H2 |].
  exact (aggregator_frame two_rows [0; 1]%nat "oligo_name" ","
           two_rows_after _ H1 H2).
Defined.


End Instances.

(** * Further properties *)

(** ** The table reader *)

Section ReaderMore.

Lemma fill_row_notin (names : list string) :
  forall (r : row) vals k, k ∉ names -> fill_row r names vals !! k = r !! k.
Proof.
  induction names as [|f names IH]; intros r vals k Hk; [reflexivity |].
  destruct vals as [|v vals]; [reflexivity |]. simpl.
  apply not_elem_of_cons in Hk as [Hne Hk].
  rewrite (IH _ _ _ Hk). now apply lookup_insert_ne.
Qed.

(** The binding of a name is the value at its last position. *)
Lemma fill_row_last (names : list string) :
  forall (r : row) vals j k v,
    names !! j = Some k -> vals !! j = Some v ->
    (forall j', (j < j')%nat -> names !! j' <> Some k) ->
    fill_row r names vals !! k = Some v.
Proof.
  induction names as [|f names IH]; intros r vals j k v Hn Hv Hlast;
    [discriminate |].
  destruct vals as [|x vals]; [discriminate |].
  destruct j as [|j]; simpl in Hn, Hv |- *.
  - injection Hn as ->. injection Hv as ->.
    rewrite fill_row_notin; [apply lookup_insert_eq |].
    intros [i Hi]%list_elem_of_lookup. apply (Hlast (S i)); [lia | exact Hi].
  - apply (IH _ _ j); [exact Hn | exact Hv |].
    intros j' Hj'. apply (Hlast (S j')). lia.
Qed.

(** A binding of a filled row was there before or is one of the values. *)
Lemma fill_row_value (names : list string) :
  forall (r : row) vals k v,
    fill_row r names vals !! k = Some v -> r !! k = Some v \/ v ∈ vals.
Proof.
  induction names as [|f names IH]; intros r vals k v H; [now left |].
  destruct vals as [|x vals]; [now left |]. simpl in H.
  destruct (IH _ _ _ _ H) as [Hr | Hin].
  - destruct (decide (f = k)) as [->|Hne].
    + rewrite lookup_insert_eq in Hr. injection Hr as ->.
      right. apply list_elem_of_here.
    + rewrite lookup_insert_ne in Hr by exact Hne. now left.
  - right. now apply list_elem_of_further.
Qed.

Lemma cons_head_tokens (c : ascii) (l : list string) :
  PyStr.is_space c = false -> Forall is_token l ->
  Forall is_token (PyStr.cons_head c l).
Proof.
  intros Hc Hl. destruct l as [|h t]; simpl.
  - constructor; [|constructor]. split; [discriminate |].
    unfold solid. simpl. now rewrite Hc.
  - apply Forall_cons in Hl as [[_ Hh] Ht]. constructor; [|exact Ht].
    split; [discriminate |]. unfold solid in *. simpl. now rewrite Hc, Hh.
Qed.

(** What [split()] returns are tokens. *)
Lemma split_ws_tokens (s : string) : Forall is_token (PyStr.split_ws s).
Proof.
  induction s as [|c s IH]; simpl; [constructor |].
  destruct (PyStr.is_space c) eqn:Hc; [exact IH |].
  destruct (PyStr.starts_token s).
  - now apply cons_head_tokens.
  - constructor; [|exact IH]. split; [discriminate |].
    unfold solid. simpl. now rewrite Hc.
Qed.

Lemma strip_blank_tokens (line : string) :
  PyStr.strip line = "" -> tokens line = [].
Proof. intros H. unfold tokens. now rewrite H. Qed.

(** The rows of any file. *)
Lemma read_tsv_rows (fs : files) (path : string) :
  fst (read_tsv fs path) = [] \/
  exists first rest,
    fs path = Some (first :: rest) /\
    forallb (fits (header_of first)) rest = true /\
    fst (read_tsv fs path) =
    map (fun l => fill_row ∅ (header_of first) (tokens l)) rest.
Proof.
  destruct (fs path) as [[|first rest]|] eqn:E.
  - left. unfold read_tsv. now rewrite E.
  - rewrite (read_tsv_lines fs path first rest E).
    destruct (forallb (fits (header_of first)) rest) eqn:Hf.
    + right. now exists first, rest.
    + now left.
  - left. unfold read_tsv. now rewrite E.
Qed.

End ReaderMore.

(** X1. On a file whose data lines all have as many tokens as there are
    field names, the reader returns one row per data line, in the order of
    the lines, and prints nothing.  The row of a line binds each field name
    to the token at the last position where that name stands in the header
    (its only position when the names are distinct), and binds nothing
    else. *)
Theorem rows_follow_lines (fs : files) (path first : string)
    (rest : list string) :
  fs path = Some (first :: rest) ->
  forallb (fits (header_of first)) rest = true ->
  snd (read_tsv fs path) = [] /\
  length (fst (read_tsv fs path)) = length rest /\
  forall i line, rest !! i = Some line ->
    exists r : row,
      fst (read_tsv fs path) !! i = Some r /\
      (forall j k v,
         header_of first !! j = Some k -> tokens line !! j = Some v ->
         (forall j', (j < j')%nat -> header_of first !! j' <> Some k) ->
         r !! k = Some v) /\
      (forall k, k ∉ header_of first -> r !! k = None).
Proof.
  intros H Hf. rewrite (read_tsv_lines fs path first rest H), Hf. cbn [fst snd].
  split; [reflexivity |]. split; [apply length_map |].
  intros i line Hi.
  exists (fill_row ∅ (header_of first) (tokens line)). split.
  - rewrite list_lookup_fmap, Hi. reflexivity.
  - split.
    + intros j k v Hk Hv Hlast. exact (fill_row_last _ _ _ j k v Hk Hv Hlast).
    + intros k Hk. rewrite fill_row_notin by exact Hk. apply lookup_empty.
Qed.

(** X2. A line after the first that is empty or made of blanks only makes
    the reader drop the whole table and print the diagnostic: it has no
    token, and there is always at least one field name. *)
Theorem blank_line_discards_table (fs : files) (path first : string)
    (rest : list string) (line : string) :
  fs path = Some (first :: rest) ->
  line ∈ rest ->
  PyStr.strip line = "" ->
  read_tsv fs path = ([], [PStr (column_error path)]).
Proof.
  intros H Hin Hs. rewrite (read_tsv_lines fs path first rest H).
  rewrite forallb_fits_false; [reflexivity |].
  apply Exists_exists. exists line. split; [exact Hin |].
  rewrite (strip_blank_tokens line Hs). simpl.
  pose proof (header_of_nonempty first) as Hne.
  destruct (header_of first); [contradiction | discriminate].
Qed.

Lemma rows_hold_tokens (fs : files) (path : string) (r : row) (k v : string) :
  r ∈ fst (read_tsv fs path) -> r !! k = Some v -> is_token v.
Proof.
  intros Hr Hv.
  destruct (read_tsv_rows fs path) as [He | (first & rest & _ & _ & He)];
    rewrite He in Hr.
  - now apply elem_of_nil in Hr.
  - apply list_elem_of_fmap in Hr as (line & -> & _).
    destruct (fill_row_value _ _ _ _ _ Hv) as [H0 | Hin].
    + rewrite lookup_empty in H0. discriminate.
    + pose proof (split_ws_tokens (PyStr.strip line)) as HF.
      rewrite Forall_forall in HF. now apply HF.
Qed.

(** X3. Every value held by a row the reader returns is a token of its
    line: it is not empty and holds no blank. *)
Theorem row_values_are_tokens (fs : files) (path : string) (r : row)
    (k v : string) :
  r ∈ fst (read_tsv fs path) ->
  r !! k = Some v ->
  is_token v.
Proof. apply rows_hold_tokens. Qed.

(** ** The table aggregator *)

Section AggregatorMore.

Variables k delim : string.
Hypothesis delim_nonempty : delim <> "".

Lemma id_of_some (sigma : store) (d : nat) (i : string) :
  id_of k delim sigma d = Some i <->
  exists r v, sigma !! d = Some r /\ r !! k = Some v /\ i = ident delim v.
Proof.
  unfold id_of. split.
  - destruct (sigma !! d) as [r|] eqn:Er; simpl; [|discriminate].
    destruct (r !! k) as [v|] eqn:Ev; simpl; [|discriminate].
    intros [= <-]. exists r, v. auto.
  - intros (r & v & -> & Hv & ->). simpl. now rewrite Hv.
Qed.

Lemma id_of_has_key (sigma : store) (d : nat) :
  is_Some (id_of k delim sigma d) <-> has_key k sigma d.
Proof.
  split.
  - intros [i (r & v & Hr & Hv & _)%id_of_some]. now exists r, v.
  - intros (r & v & Hr & Hv). exists (ident delim v). apply id_of_some.
    now exists r, v.
Qed.

(** Going over a row does not change the identifier of any row. *)
Lemma id_of_normalise (sigma : store) (d0 : nat) (r0 : row) (d : nat) :
  sigma !! d0 = Some r0 ->
  id_of k delim (<[d0 := normalise k delim r0]> sigma) d = id_of k delim sigma d.
Proof.
  intros H0. unfold id_of. destruct (decide (d = d0)) as [->|Hne].
  - rewrite list_lookup_insert_eq by (eapply lookup_lt_Some; eauto).
    rewrite H0. simpl. unfold normalise.
    destruct (r0 !! k) as [v|] eqn:Ev; simpl.
    + rewrite lookup_insert_eq. simpl. now rewrite ident_idem.
    + now rewrite Ev.
  - now rewrite list_lookup_insert_ne by congruence.
Qed.

(** The turn of a row that holds the key. *)
Lemma reparse_step_some (sigma : store) (outd : groups) (d : nat) (r : row)
    (v : string) :
  sigma !! d = Some r -> r !! k = Some v ->
  reparse_step k delim (sigma, outd) d =
  Ok (<[d := normalise k delim r]> sigma, dict_add (ident delim v) d outd).
Proof.
  intros Hr Hv. unfold reparse_step. rewrite Hr, Hv.
  assert (Hn : normalise k delim r = <[k := ident delim v]> r)
    by (unfold normalise; now rewrite Hv).
  rewrite Hn. unfold ident. destruct (PyStr.contains delim v) eqn:Ec.
  - destruct delim as [|c dl]; [contradiction |]. simpl PyStr.is_empty.
    cbv iota. now rewrite truncate_before.
  - rewrite (insert_id r k v Hv). now rewrite (list_insert_id sigma d r Hr).
Qed.

(** The turn of a row that lacks the key. *)
Lemma reparse_step_none (sigma : store) (outd : groups) (d : nat) (r : row) :
  sigma !! d = Some r -> r !! k = None ->
  reparse_step k delim (sigma, outd) d = Raise (SystemExit (key_error k)).
Proof. intros Hr Hv. unfold reparse_step. now rewrite Hr, Hv. Qed.

Lemma existsb_eqb (x : string) (acc : list string) :
  existsb (String.eqb x) acc = true <-> x ∈ acc.
Proof.
  induction acc as [|y acc IH]; simpl.
  - split; [discriminate | intros H; now apply elem_of_nil in H].
  - rewrite orb_true_iff, IH, elem_of_cons, String.eqb_eq. tauto.
Qed.

Lemma dict_keys_add (key : string) (d : nat) (outd : groups) :
  dict_keys (dict_add key d outd) = see (dict_keys outd) key.
Proof.
  induction outd as [|[k' g] outd IH]; [reflexivity |].
  unfold dict_keys, see in *. cbn [dict_add fmap list_fmap fst existsb].
  destruct (String.eqb key k') eqn:E; cbn [fmap list_fmap fst orb];
    [reflexivity |].
  rewrite IH. now destruct (existsb (String.eqb key) (outd.*1)).
Qed.

Lemma dict_get_add (i key : string) (d : nat) (outd : groups) :
  dict_get i (dict_add key d outd) =
  if String.eqb i key then Some (default [] (dict_get i outd) ++ [d])
  else dict_get i outd.
Proof.
  induction outd as [|[k' g] outd IH]; simpl.
  - now destruct (String.eqb i key).
  - destruct (String.eqb_spec key k') as [->|Hne]; simpl.
    + now destruct (String.eqb i k').
    + destruct (String.eqb_spec i k') as [->|Hne'].
      * apply String.eqb_neq in Hne. rewrite String.eqb_sym in Hne.
        now rewrite Hne.
      * exact IH.
Qed.

Lemma members_snoc (sigma : store) (i : string) (lp : list nat) (d : nat) :
  members k delim sigma i (lp ++ [d]) =
  members k delim sigma i lp ++
  (if decide (id_of k delim sigma d = Some i) then [d] else []).
Proof.
  unfold members. rewrite filter_app. reflexivity.
Qed.

Lemma see_fold_in (l : list string) :
  forall acc x, x ∈ foldl see acc l <-> x ∈ acc \/ x ∈ l.
Proof.
  induction l as [|y l IH]; intros acc x; simpl.
  - split; [now left | intros [H|H]; [exact H | now apply elem_of_nil in H]].
  - rewrite IH, elem_of_cons. unfold see.
    destruct (existsb (String.eqb y) acc) eqn:E.
    + apply existsb_eqb in E. split; [tauto |].
      intros [H | [-> | H]]; auto.
    + rewrite elem_of_app, list_elem_of_singleton. tauto.
Qed.

Lemma see_fold_nodup (l : list string) :
  forall acc, NoDup acc -> NoDup (foldl see acc l).
Proof.
  induction l as [|y l IH]; intros acc Hacc; simpl; [exact Hacc |].
  apply IH. unfold see. destruct (existsb (String.eqb y) acc) eqn:E;
    [exact Hacc |].
  apply NoDup_app. split; [exact Hacc |]. split; [|apply NoDup_singleton].
  intros x Hx ->%list_elem_of_singleton.
  apply existsb_eqb in Hx. congruence.
Qed.

(** What the loop leaves in the dict, from any point of the list. *)
Lemma reparse_loop_groups (sigma0 : store) (l : list nat) :
  forall sigma outd sigma' outd' lp,
    (forall d, id_of k delim sigma d = id_of k delim sigma0 d) ->
    (forall i, dict_get i outd = group_of (members k delim sigma0 i lp)) ->
    reparse_loop k delim (sigma, outd) l = Ok (sigma', outd') ->
    (forall i, dict_get i outd' = group_of (members k delim sigma0 i (lp ++ l))) /\
    dict_keys outd' =
    foldl see (dict_keys outd) (omap (id_of k delim sigma0) l) /\
    Forall (has_key k sigma0) l.
Proof.
  induction l as [|d0 l IH]; intros sigma outd sigma' outd' lp Hid Hg H;
    cbn [reparse_loop] in H.
  - simplify_eq. rewrite app_nil_r. split; [exact Hg |]. split; [reflexivity |].
    constructor.
  - destruct (reparse_step k delim (sigma, outd) d0) as [st|] eqn:E;
      cbn [rbind] in H; [|discriminate].
    apply (reparse_step_ok _ _ _ _ _ _ delim_nonempty) in E
      as (r0 & v0 & Hr0 & Hv0 & ->).
    assert (Hi0 : id_of k delim sigma0 d0 = Some (ident delim v0)).
    { rewrite <- Hid. apply id_of_some. now exists r0, v0. }
    destruct (IH (<[d0 := normalise k delim r0]> sigma)
                (dict_add (ident delim v0) d0 outd) sigma' outd' (lp ++ [d0])
                (fun d => eq_trans (id_of_normalise sigma d0 r0 d Hr0) (Hid d)))
      as (Hg' & Hk' & Hall); [| exact H |].
    + intros i. rewrite dict_get_add, members_snoc, Hi0, Hg.
      destruct (String.eqb_spec i (ident delim v0)) as [->|Hne].
      * rewrite decide_True by reflexivity.
        destruct (members k delim sigma0 (ident delim v0) lp); reflexivity.
      * rewrite decide_False by congruence. now rewrite app_nil_r.
    + split; [|split].
      * intros i. rewrite (Hg' i). now rewrite <- app_assoc.
      * rewrite Hk', dict_keys_add. cbn [omap list_omap]. now rewrite Hi0.
      * constructor; [|exact Hall]. apply id_of_has_key. now rewrite Hi0.
Qed.

(** The loop succeeds when every row holds the key, and ends the run with
    the message at the first row that does not. *)
Lemma reparse_loop_result (l : list nat) :
  forall sigma outd,
    (forall d, d ∈ l -> is_Some (sigma !! d)) ->
    (Forall (has_key k sigma) l ->
       exists st, reparse_loop k delim (sigma, outd) l = Ok st) /\
    (~ Forall (has_key k sigma) l ->
       reparse_loop k delim (sigma, outd) l = Raise (SystemExit (key_error k))).
Proof.
  induction l as [|d0 l IH]; intros sigma outd Hval.
  - split; [intros _; now eexists | intros H; destruct H; constructor].
  - destruct (Hval d0 (list_elem_of_here _ _)) as [r0 Hr0].
    cbn [reparse_loop].
    destruct (r0 !! k) as [v0|] eqn:Hv0.
    + rewrite (reparse_step_some sigma outd d0 r0 v0 Hr0 Hv0). cbn [rbind].
      assert (Hval' : forall d, d ∈ l ->
                is_Some (<[d0 := normalise k delim r0]> sigma !! d)).
      { intros d Hd. destruct (Hval d (list_elem_of_further _ _ _ Hd)) as [r Hr].
        apply lookup_lt_is_Some. rewrite length_insert.
        eapply lookup_lt_Some; eauto. }
      assert (Hsame : Forall (has_key k (<[d0 := normalise k delim r0]> sigma)) l
                      <-> Forall (has_key k sigma) l).
      { rewrite !Forall_forall. split; intros HF d Hd;
          apply id_of_has_key; specialize (HF d Hd);
          apply id_of_has_key in HF.
        - now rewrite <- (id_of_normalise sigma d0 r0 d Hr0).
        - now rewrite (id_of_normalise sigma d0 r0 d Hr0). }
      destruct (IH (<[d0 := normalise k delim r0]> sigma)
                  (dict_add (ident delim v0) d0 outd) Hval') as [Hok Hko].
      split.
      * intros HF. apply Forall_cons in HF as [_ HF]. apply Hok, Hsame, HF.
      * intros HF. apply Hko. intros HF'. apply HF.
        constructor; [now exists r0, v0 | now apply Hsame].
    + rewrite (reparse_step_none sigma outd d0 r0 Hr0 Hv0). cbn [rbind].
      split; [|reflexivity].
      intros HF. apply Forall_cons in HF as [(r & v & Hr & Hv) _]. congruence.
Qed.

End AggregatorMore.

(** X4. With a non-empty delimiter, the aggregator returns a dict exactly
    when every row of the list holds the key field; otherwise it ends the
    run with the message naming the key, whatever the other rows are. *)
Theorem aggregation_needs_key (sigma : store) (l : list nat)
    (k delim : string) :
  delim <> "" ->
  (forall d, d ∈ l -> is_Some (sigma !! d)) ->
  (Forall (has_key k sigma) l ->
     exists t, reparse_tsv_list sigma l k delim = Ok t) /\
  (~ Forall (has_key k sigma) l ->
     reparse_tsv_list sigma l k delim = Raise (SystemExit (key_error k))).
Proof.
  intros Hd Hval. unfold reparse_tsv_list.
  exact (reparse_loop_result k delim Hd l sigma [] Hval).
Qed.

(** X5. The keys of the dict returned by the aggregator are the
    identifiers of the rows in the order in which each is first met in the
    list, each once. *)
Theorem keys_in_first_seen_order (sigma : store) (l : list nat)
    (k delim : string) (sigma' : store) (outd : groups) :
  delim <> "" ->
  reparse_tsv_list sigma l k delim = Ok (sigma', outd) ->
  dict_keys outd = first_seen (omap (id_of k delim sigma) l) /\
  NoDup (dict_keys outd) /\
  (forall i, i ∈ dict_keys outd <->
             exists d, d ∈ l /\ id_of k delim sigma d = Some i).
Proof.
  intros Hd H. unfold reparse_tsv_list in H.
  destruct (reparse_loop_groups k delim Hd sigma l sigma [] sigma' outd []
              (fun d => eq_refl) (fun i => eq_refl) H) as (_ & Hk & _).
  simpl in Hk. fold (first_seen (omap (id_of k delim sigma) l)) in Hk.
  split; [exact Hk |]. rewrite Hk. split.
  - apply see_fold_nodup. constructor.
  - intros i. unfold first_seen. rewrite see_fold_in, list_elem_of_omap.
    split; [intros [H0 | H0]; [now apply elem_of_nil in H0 | exact H0] | now right].
Qed.

(** X6. The group filed under an identifier lists the rows of that
    identifier in the order of the list, and an identifier no row has is not
    a key of the dict; so the first row of a group is the first row of the
    list with that identifier. *)
Theorem groups_list_members (sigma : store) (l : list nat)
    (k delim : string) (sigma' : store) (outd : groups) :
  delim <> "" ->
  reparse_tsv_list sigma l k delim = Ok (sigma', outd) ->
  forall i, dict_get i outd = group_of (members k delim sigma i l).
Proof.
  intros Hd H. unfold reparse_tsv_list in H.
  exact (proj1 (reparse_loop_groups k delim Hd sigma l sigma [] sigma' outd []
                  (fun d => eq_refl) (fun i => eq_refl) H)).
Qed.

(** X7. In the dict returned by the aggregator no key holds the
    delimiter, no group is empty, and every row of a group holds the key of
    the group in its key field. *)
Theorem groups_are_keyed (sigma : store) (l : list nat)
    (k delim : string) (sigma' : store) (outd : groups) :
  delim <> "" ->
  reparse_tsv_list sigma l k delim = Ok (sigma', outd) ->
  forall i g, dict_get i outd = Some g ->
    PyStr.contains delim i = false /\ g <> [] /\
    forall d, d ∈ g ->
      exists r' : row, sigma' !! d = Some r' /\ r' !! k = Some i.
Proof.
  intros Hd H i g Hg. unfold reparse_tsv_list in H.
  pose proof (proj1 (reparse_loop_groups k delim Hd sigma l sigma [] sigma' outd []
                       (fun d => eq_refl) (fun i => eq_refl) H) i) as Hm.
  simpl in Hm. rewrite Hg in Hm.
  destruct (reparse_loop_inv k delim Hd l _ _ _ _ H) as (_ & Hst & _).
  assert (Hrow : forall d, d ∈ g ->
            exists r v, sigma !! d = Some r /\ r !! k = Some v /\
                        i = ident delim v /\ d ∈ l).
  { intros d Hdg. destruct (members k delim sigma i l) as [|x m] eqn:Em;
      [discriminate |].
    injection Hm as ->. rewrite <- Em in Hdg. unfold members in Hdg.
    apply list_elem_of_filter in Hdg as [Hid Hl].
    apply id_of_some in Hid as (r & v & Hr & Hv & Hi). now exists r, v. }
  assert (Hne : g <> []).
  { destruct (members k delim sigma i l); [discriminate | now injection Hm as ->]. }
  split; [|split; [exact Hne |]].
  - destruct g as [|d g]; [contradiction |].
    destruct (Hrow d (list_elem_of_here _ _)) as (r & v & _ & _ & -> & _).
    unfold ident. destruct (PyStr.contains delim v) eqn:Ec;
      [now apply before_clean | exact Ec].
  - intros d Hdg. destruct (Hrow d Hdg) as (r & v & Hr & Hv & -> & Hl).
    exists (normalise k delim r). split.
    + rewrite (Hst d r Hr). now rewrite decide_True.
    + now apply normalise_key.
Qed.

Lemma first_row_fields (sigma : store) (l : list nat)
    (k delim : string) (sigma' : store) (outd : groups) (i : string) :
  delim <> "" ->
  reparse_tsv_list sigma l k delim = Ok (sigma', outd) ->
  i ∈ dict_keys outd ->
  exists d r,
    head (members k delim sigma i l) = Some d /\
    sigma !! d = Some r /\
    forall f, field_of (sigma', outd) i f =
              of_option (KeyError f) (normalise k delim r !! f).
Proof.
  intros Hd H Hi. unfold reparse_tsv_list in H.
  destruct (reparse_loop_groups k delim Hd sigma l sigma [] sigma' outd []
              (fun d => eq_refl) (fun i => eq_refl) H) as (Hg & Hk & _).
  simpl in Hg, Hk. rewrite Hk in Hi.
  apply see_fold_in in Hi as [Hi | Hi]; [now apply elem_of_nil in Hi |].
  apply list_elem_of_omap in Hi as (d0 & Hd0 & Hid0).
  destruct (members k delim sigma i l) as [|d m] eqn:Em.
  { assert (Hin : d0 ∈ members k delim sigma i l)
      by (unfold members; apply list_elem_of_filter; now split).
    rewrite Em in Hin. now apply elem_of_nil in Hin. }
  assert (Hdm : d ∈ members k delim sigma i l)
    by (rewrite Em; apply list_elem_of_here).
  unfold members in Hdm. apply list_elem_of_filter in Hdm as [Hid Hl].
  apply id_of_some in Hid as (r & v & Hr & Hv & _).
  destruct (reparse_loop_inv k delim Hd l _ _ _ _ H) as (_ & Hst & _).
  exists d, r. split; [reflexivity |]. split; [exact Hr |].
  intros f. unfold field_of. rewrite (Hg i), Em. simpl.
  rewrite (Hst d r Hr). now rewrite decide_True.
Qed.

(** X8. For a key of the dict, the fields the probe loop reads are those
    of the first row of the list with that identifier, as the aggregator
    left it: the lookup of the key and of the first row of its group cannot
    fail, only the field can be missing. *)
Theorem loop_reads_first_row (sigma : store) (l : list nat)
    (k delim : string) (sigma' : store) (outd : groups) (i : string) :
  delim <> "" ->
  reparse_tsv_list sigma l k delim = Ok (sigma', outd) ->
  i ∈ dict_keys outd ->
  exists d r,
    head (members k delim sigma i l) = Some d /\
    sigma !! d = Some r /\
    forall f, field_of (sigma', outd) i f =
              of_option (KeyError f) (normalise k delim r !! f).
Proof. apply first_row_fields. Qed.

(** ** Tables loaded from files *)

Section Loaded.

Lemma fill_row_in (names : list string) :
  forall (r : row) vals k,
    length vals = length names -> k ∈ names ->
    is_Some (fill_row r names vals !! k).
Proof.
  induction names as [|f names IH]; intros r vals k Hlen Hk.
  - now apply elem_of_nil in Hk.
  - destruct vals as [|x vals]; [discriminate |]. simpl.
    destruct (decide (k ∈ names)) as [Hin|Hnin].
    + apply IH; [simpl in Hlen; lia | exact Hin].
    + apply elem_of_cons in Hk as [->|Hk]; [|contradiction].
      rewrite fill_row_notin by exact Hnin. rewrite lookup_insert_eq.
      now eexists.
Qed.

Lemma seq_refs_valid {A} (rows : list A) (d : nat) :
  d ∈ seq 0 (length rows) -> is_Some (rows !! d).
Proof. intros [_ H]%elem_of_seq. apply lookup_lt_is_Some. lia. Qed.

(** Whether the rows of a well-formed file hold a field. *)
Lemma rows_have_field (first : string) (rest : list string) (k : string) :
  forallb (fits (header_of first)) rest = true ->
  let rows := map (fun l => fill_row ∅ (header_of first) (tokens l)) rest in
  (k ∈ header_of first -> Forall (has_key k rows) (seq 0 (length rows))) /\
  (k ∉ header_of first -> rest <> [] ->
   ~ Forall (has_key k rows) (seq 0 (length rows))).
Proof.
  intros Hf rows. split.
  - intros Hk. apply Forall_forall. intros d Hd.
    destruct (seq_refs_valid rows d Hd) as [r Hr].
    assert (Hr' := Hr). unfold rows in Hr'.
    rewrite list_lookup_fmap in Hr'.
    destruct (rest !! d) as [line|] eqn:El; [|discriminate].
    injection Hr' as <-.
    assert (Hfit : fits (header_of first) line = true).
    { rewrite forallb_forall in Hf. apply Hf.
      apply list_elem_of_In, list_elem_of_lookup. now exists d. }
    apply Nat.eqb_eq in Hfit.
    destruct (fill_row_in (header_of first) ∅ (tokens line) k Hfit Hk) as [v Hv].
    now exists (fill_row ∅ (header_of first) (tokens line)), v.
  - intros Hk Hne HF. destruct rest as [|line rest]; [contradiction |].
    rewrite Forall_forall in HF.
    destruct (HF 0%nat) as (r & v & Hr & Hv).
    + unfold rows. simpl. apply list_elem_of_here.
    + unfold rows in Hr. simpl in Hr. injection Hr as <-.
      rewrite fill_row_notin in Hv by exact Hk.
      rewrite lookup_empty in Hv. discriminate.
Qed.

(** Loading a well-formed file. *)
Lemma table_of_key (fs : files) (path first : string) (rest : list string) :
  fs path = Some (first :: rest) ->
  forallb (fits (header_of first)) rest = true ->
  ("oligo_name" ∈ header_of first -> exists t, table_of fs path = Ok t) /\
  ("oligo_name" ∉ header_of first -> rest <> [] ->
   table_of fs path = Raise (SystemExit (key_error "oligo_name"))).
Proof.
  intros H Hf. unfold table_of, reparse_tsv_list.
  rewrite (read_tsv_lines fs path first rest H), Hf. cbn [fst].
  destruct (rows_have_field first rest "oligo_name" Hf) as [Hyes Hno].
  assert (Hd : "," <> "") by discriminate.
  destruct (reparse_loop_result "oligo_name" "," Hd _ _ []
              (seq_refs_valid
                 (map (fun l => fill_row ∅ (header_of first) (tokens l)) rest)))
    as [Hok Hko].
  split.
  - intros Hk. apply Hok, Hyes, Hk.
  - intros Hk Hne. apply Hko, Hno; assumption.
Qed.

(** A file without rows loads to the empty table. *)
Lemma table_of_empty (fs : files) (path : string) :
  fst (read_tsv fs path) = [] -> table_of fs path = Ok ([], []).
Proof. intros H. unfold table_of. now rewrite H. Qed.

Lemma count_le_length (c : ascii) (s : string) :
  (PyStr.count c s <= String.length s)%nat.
Proof.
  induction s as [|d s IH]; simpl; [lia |].
  destruct (Ascii.eqb c d); lia.
Qed.

Lemma count_two_le_length (c1 c2 : ascii) (s : string) :
  c1 <> c2 ->
  (PyStr.count c1 s + PyStr.count c2 s <= String.length s)%nat.
Proof.
  intros Hne. induction s as [|d s IH]; simpl; [lia |].
  destruct (Ascii.eqb_spec c1 d) as [->|H1];
    destruct (Ascii.eqb_spec c2 d) as [->|H2]; try lia.
  contradiction.
Qed.

Lemma upper_length (s : string) : String.length (PyStr.upper s) = String.length s.
Proof. induction s as [|c s IH]; simpl; [reflexivity | now rewrite IH]. Qed.

(** The GC fraction of a non-empty text is defined and is in [0,1]. *)
Lemma fgc_of_range (s : string) :
  s <> "" -> exists q, fgc_of s = Ok q /\ (0 <= q /\ q <= 1)%Q.
Proof.
  intros Hne. unfold fgc_of, fdiv.
  set (u := PyStr.upper s).
  assert (Hlen : (0 < String.length u)%nat).
  { unfold u. rewrite upper_length. destruct s; [contradiction | simpl; lia]. }
  assert (Hcnt : (PyStr.count "G" u + PyStr.count "C" u <= String.length u)%nat)
    by (apply count_two_le_length; discriminate).
  assert (Hpos : (0 < Qnat (String.length u) + 0)%Q).
  { rewrite Qplus_0_r. unfold Qnat. change 0%Q with (inject_Z 0).
    rewrite <- Zlt_Qlt. lia. }
  destruct (Qeq_bool (Qnat (String.length u) + 0) 0) eqn:E.
  - apply Qeq_bool_iff in E. rewrite E in Hpos. now apply Qlt_irrefl in Hpos.
  - eexists. split; [reflexivity |]. split.
    + apply Qle_shift_div_l; [exact Hpos |]. rewrite Qmult_0_l.
      unfold Qnat. change 0%Q with (inject_Z 0). rewrite <- Zle_Qle. lia.
    + apply Qle_shift_div_r; [exact Hpos |]. rewrite Qmult_1_l, Qplus_0_r.
      unfold Qnat. rewrite <- Zle_Qle. lia.
Qed.

(** A field other than the key read from a loaded table is a value the
    reader stored. *)
Lemma loaded_field (fs : files) (path : string) (t : table)
    (name f v : string) :
  table_of fs path = Ok t -> f <> "oligo_name" ->
  field_of t name f = Ok v ->
  exists r : row, r ∈ fst (read_tsv fs path) /\ r !! f = Some v.
Proof.
  intros Ht Hf Hv. destruct t as [sigma' outd]. unfold field_of in Hv.
  apply rbind_ok in Hv as (g & _ & Hv). apply rbind_ok in Hv as (d & _ & Hv).
  apply rbind_ok in Hv as (r' & Hr'%of_option_ok & Hv%of_option_ok).
  unfold table_of, reparse_tsv_list in Ht.
  assert (Hd : "," <> "") by discriminate.
  destruct (reparse_loop_inv "oligo_name" "," Hd _ _ _ _ _ Ht) as (Hlen & Hst & _).
  assert (Hlt : (d < length (fst (read_tsv fs path)))%nat).
  { rewrite <- Hlen. eapply lookup_lt_Some; eauto. }
  apply lookup_lt_is_Some in Hlt as [r Hr].
  rewrite (Hst d r Hr) in Hr'. injection Hr' as <-.
  exists r. split; [apply list_elem_of_lookup; now exists d |].
  destruct (decide _); [|exact Hv].
  now rewrite normalise_other in Hv.
Qed.

End Loaded.

(** X9. A file whose data lines all fit its header loads to a table when
    the header has the field oligo_name; when it has not and there is at
    least one data line, loading it ends the run with the message naming
    that key. *)
Theorem table_needs_oligo_name (fs : files) (path first : string)
    (rest : list string) :
  fs path = Some (first :: rest) ->
  forallb (fits (header_of first)) rest = true ->
  ("oligo_name" ∈ header_of first -> exists t, table_of fs path = Ok t) /\
  ("oligo_name" ∉ header_of first -> rest <> [] ->
   table_of fs path = Raise (SystemExit (key_error "oligo_name"))).
Proof. apply table_of_key. Qed.

(** X10. For a table loaded from a file, the GC fraction of the sequence
    read for a probe is always defined (the division never fails) and lies
    in [0,1]. *)
Theorem gc_fraction_defined (fs : files) (path : string) (t : table)
    (name sq : string) :
  table_of fs path = Ok t ->
  field_of t name "Seq" = Ok sq ->
  exists q, fgc_of sq = Ok q /\ (0 <= q /\ q <= 1)%Q.
Proof.
  intros Ht Hsq.
  destruct (loaded_field fs path t name "Seq" sq Ht) as (r & Hr & Hv);
    [discriminate | exact Hsq |].
  apply fgc_of_range. exact (proj1 (rows_hold_tokens fs path r "Seq" sq Hr Hv)).
Qed.

(** ** Numerals as m-values *)

Section Numerals.

Lemma digits_all (s : string) :
  forall acc n, PyFloat.digits acc s = Some n ->
                PyFloat.all_chars PyFloat.is_digit s = true.
Proof.
  induction s as [|c s IH]; intros acc n H; simpl in *; [reflexivity |].
  destruct (PyFloat.is_digit c); [|discriminate]. simpl. eapply IH, H.
Qed.

Lemma digit_is_num (s : string) :
  PyFloat.all_chars PyFloat.is_digit s = true -> nums s.
Proof.
  unfold nums. induction s as [|c s IH]; simpl; [reflexivity |].
  intros [Hc Hs]%andb_prop. unfold PyFloat.is_num. rewrite Hc. simpl.
  now apply IH.
Qed.

(** The two parts cut at the first dot make up the text. *)
Lemma cut_dot_parts (s : string) :
  forall i f, PyFloat.cut_dot s = (i, f) ->
    s = String.append i (match f with
                         | Some f' => String "." f'
                         | None => EmptyString
                         end).
Proof.
  induction s as [|c s IH]; intros i f H; simpl in H.
  - now injection H as <- <-.
  - destruct (PyFloat.is_dot c) eqn:Hc.
    + injection H as <- <-. unfold PyFloat.is_dot in Hc.
      apply Ascii.eqb_eq in Hc. now subst c.
    + destruct (PyFloat.cut_dot s) as [i' f'] eqn:E. injection H as <- <-.
      simpl. now rewrite <- (IH i' f' eq_refl).
Qed.

(** What [float] reads without a sign is made of digits and dots. *)
Lemma unsigned_nums (s : string) (q : Q) :
  PyFloat.unsigned s = Some q -> nums s.
Proof.
  unfold PyFloat.unsigned. destruct (PyFloat.cut_dot s) as [i f] eqn:E.
  destruct (PyStr.is_empty _); [discriminate |].
  destruct (PyFloat.digits 0 _) as [n|] eqn:Ed; [|discriminate]. intros _.
  apply digits_all in Ed. rewrite all_chars_append in Ed.
  apply andb_prop in Ed as [Hi Hf].
  rewrite (cut_dot_parts s i f E). unfold nums.
  rewrite all_chars_append. apply andb_true_intro. split.
  - exact (digit_is_num i Hi).
  - destruct f as [f'|]; simpl; [exact (digit_is_num f' Hf) | reflexivity].
Qed.

(** A numeral has the constant shape. *)
Lemma decimal_shape (s : string) (q : Q) :
  PyFloat.decimal s = Some q -> constant_shape s.
Proof.
  destruct s as [|c s]; simpl; [discriminate |].
  destruct (Ascii.eqb_spec c "-") as [->|Hm].
  - destruct (PyFloat.unsigned s) as [q'|] eqn:E; [|discriminate]. intros _.
    exists "-", s. split; [reflexivity |].
    split; [right; now right | exact (unsigned_nums s q' E)].
  - destruct (Ascii.eqb_spec c "+") as [->|Hp].
    + intros E. exists "+", s. split; [reflexivity |].
      split; [right; now left | exact (unsigned_nums s q E)].
    + intros E. exists "", (String c s). split; [reflexivity |].
      split; [now left | exact (unsigned_nums _ q E)].
Qed.

(** A numeral that starts with a sign has the signed shape. *)
Lemma decimal_signed (c : ascii) (s : string) (q : Q) :
  PyFloat.is_sign c = true -> PyFloat.decimal (String c s) = Some q ->
  signed_shape (String c s).
Proof.
  intros Hc H. exists c, s. split; [reflexivity |]. split; [exact Hc |].
  simpl in H. destruct (is_sign_cases c Hc) as [-> | ->]; simpl in H.
  - exact (unsigned_nums s q H).
  - destruct (PyFloat.unsigned s) as [q'|] eqn:E; [|discriminate].
    exact (unsigned_nums s q' E).
Qed.

Lemma float_decimal (X : externals) (s : string) (q : Q) :
  PyFloat.plain s = true -> PyFloat.decimal s = Some q -> float X s = Ok q.
Proof. intros Hp Hq. unfold float, PyFloat.float. now rewrite Hp, Hq. Qed.

Lemma all_chars_mono (p p' : ascii -> bool) (s : string) :
  (forall c, p c = true -> p' c = true) ->
  PyFloat.all_chars p s = true -> PyFloat.all_chars p' s = true.
Proof.
  intros Hpp. induction s as [|c s IH]; simpl; [reflexivity |].
  intros [Hc Hs]%andb_prop. now rewrite (Hpp c Hc), (IH Hs).
Qed.

Lemma constant_shape_chars (s : string) :
  constant_shape s -> PyFloat.all_chars mvalue_char s = true.
Proof.
  intros H%constant_shape_plain. revert H. apply all_chars_mono.
  intros c Hc. unfold mvalue_char. now rewrite Hc.
Qed.

Lemma signed_shape_chars (s : string) :
  signed_shape s -> PyFloat.all_chars mvalue_char s = true.
Proof.
  intros (c & body & -> & Hc & Hb). simpl. unfold mvalue_char at 1.
  rewrite Hc. simpl. revert Hb. apply all_chars_mono.
  intros c' Hc'. unfold mvalue_char. rewrite Hc'. now rewrite orb_true_r.
Qed.

End Numerals.

(** X11. Every text that float reads as a plain decimal numeral is an
    accepted m-value and gives the function of that constant value; and two
    such numerals, the second starting with a sign, joined by the letter L
    give the function x * L + y of their values. *)
Theorem numerals_are_accepted (X : externals) :
  (forall s q, PyFloat.decimal s = Some q ->
     parse_mvalue s = Some (Constant s) /\
     forall L, mvalue X (Constant s) L = Ok q) /\
  (forall x c y qx qy,
     PyFloat.decimal x = Some qx ->
     PyFloat.is_sign c = true ->
     PyFloat.decimal (String c y) = Some qy ->
     parse_mvalue (String.append x (String "L" (String c y))) =
     Some (Linear x (String c y)) /\
     forall L, mvalue X (Linear x (String c y)) L = Ok (qx * L + qy)%Q).
Proof.
  split.
  - intros s q Hq. pose proof (decimal_shape s q Hq) as Hs.
    split; [now apply parse_mvalue_constant |].
    intros L. simpl. apply float_decimal; [now apply constant_shape_plain | exact Hq].
  - intros x c y qx qy Hx Hc Hy.
    pose proof (decimal_shape x qx Hx) as Hsx.
    pose proof (decimal_signed c y qy Hc Hy) as Hsy.
    split; [now apply parse_mvalue_linear |].
    intros L. simpl.
    rewrite (float_decimal X x qx (constant_shape_plain x Hsx) Hx).
    simpl.
    rewrite (float_decimal X (String c y) qy
               (constant_shape_plain _ (decimal_shape _ qy Hy)) Hy).
    reflexivity.
Qed.

(** X12. A text holding any character other than a sign, a digit, a dot
    or the letter L is rejected: it ends the run with the usage error.
    Numbers written with an exponent are thus not accepted. *)
Theorem other_characters_are_rejected (X : externals) (a : args) (fs : files) :
  PyFloat.all_chars mvalue_char (fa_mvalue a) = false ->
  parse_mvalue (fa_mvalue a) = None /\
  fst (run X a fs) = Raise (SystemExit mvalue_error).
Proof.
  intros H.
  assert (Hn : parse_mvalue (fa_mvalue a) = None).
  { apply parse_mvalue_none. split.
    - intros Hc%constant_shape_chars. congruence.
    - intros (x & y & Hs & Hx%constant_shape_chars & Hy%signed_shape_chars).
      rewrite Hs, all_chars_append in H. simpl in H.
      rewrite Hx, Hy in H. discriminate H. }
  split; [exact Hn |]. now rewrite run_eq, Hn.
Qed.

(** ** The whole run *)

Section RunMore.

Variable X : externals.
Variable a : args.

Lemma turn_world (mv : Q -> result Q) (t s : table) (m : Q) (name : string)
    (w : world) :
  exists lines, snd (turn X a mv t s m name w) = put lines w.
Proof.
  unfold turn, bind, lift.
  destruct (probe X a mv t s name) as [v|e];
    [|exists []; now rewrite put_nil].
  destruct (doSingleOut a); [|exists []; now rewrite put_nil].
  unfold fwrite. destruct (fout w) as [|l|l] eqn:E;
    try (exists []; now rewrite put_nil).
  exists [WScore name (score v)]. unfold put. now rewrite E.
Qed.

(** The loop only appends lines to the stream. *)
Lemma score_loop_world (mv : Q -> result Q) (t s : table) (keys : list string) :
  forall m w, exists lines,
    snd (score_loop X a mv t s m keys w) = put lines w.
Proof.
  induction keys as [|k keys IH]; intros m w.
  - exists []. simpl. now rewrite put_nil.
  - cbn [score_loop]. unfold bind at 1.
    destruct (turn_world mv t s m k w) as [l1 H1].
    destruct (turn X a mv t s m k w) as [[m'|e] w1]; simpl in H1; subst w1.
    + destruct (IH m' (put l1 w)) as [l2 H2]. exists (l1 ++ l2).
      now rewrite H2, put_put.
    + now exists l1.
Qed.

(** The run after the m-value check, case by case. *)
Lemma scoring_cases (fs : files) (m : mvalue_t) (w : world) :
  scoring X a fs m w =
  match table_of fs (target_tsv a) with
  | Raise e => (Raise e, say (diag_of fs (target_tsv a)) w)
  | Ok t =>
      let w1 := say (diag_of fs (second_tsv a))
                  (say (diag_of fs (target_tsv a)) w) in
      match table_of fs (second_tsv a) with
      | Raise e => (Raise e, w1)
      | Ok s =>
          match score_loop X a (mvalue X m) t s 1 (dict_keys (snd t)) w1 with
          | (Ok v, w') => (Ok tt, say [PNum v] (shut a w'))
          | (Raise e, w') => (Raise e, w')
          end
      end
  end.
Proof.
  unfold scoring. unfold bind at 1. rewrite load_table_eq.
  destruct (table_of fs (target_tsv a)) as [t|e]; [|reflexivity].
  unfold bind at 1. rewrite load_table_eq.
  destruct (table_of fs (second_tsv a)) as [s|e]; [|reflexivity].
  unfold bind at 1. cbv zeta.
  destruct (score_loop _ _ _ _ _ _ _ _) as [[v|e] w']; [|reflexivity].
  apply finish_eq.
Qed.

Lemma numbers_say (ps : list printed) (w : world) :
  printed_numbers (say ps w) = printed_numbers w ++ omap number_of ps.
Proof. unfold printed_numbers, say. simpl. apply omap_app. Qed.

Lemma numbers_put (lines : list chunk) (w : world) :
  printed_numbers (put lines w) = printed_numbers w.
Proof. reflexivity. Qed.

Lemma numbers_shut (w : world) : printed_numbers (shut a w) = printed_numbers w.
Proof. unfold shut. now destruct (doSingleOut a). Qed.

Lemma fout_put_prepared (lines : list chunk) (ps : list printed) :
  fout (put lines (say ps (after_prepare a))) =
  if doSingleOut a then Opened (WText header :: lines) else NotOpened.
Proof. unfold put, say, after_prepare. simpl. now destruct (doSingleOut a). Qed.

Lemma say_say (p1 p2 : list printed) (w : world) :
  say p2 (say p1 w) = say (p1 ++ p2) w.
Proof. unfold say. simpl. now rewrite app_assoc. Qed.

(** The world a run leaves, in each of the ways it can end. *)
Lemma run_cases (fs : files) :
  exists ps lines,
    omap number_of ps = [] /\
    ((exists e, run X a fs = (Raise e, put lines (say ps (after_prepare a)))) \/
     (exists v, run X a fs =
        (Ok tt, say [PNum v] (shut a (put lines (say ps (after_prepare a))))))).
Proof.
  rewrite run_eq. destruct (parse_mvalue (fa_mvalue a)) as [m|].
  2:{ exists [], []. split; [reflexivity |]. left. eexists.
      rewrite put_nil. unfold say, after_prepare. reflexivity. }
  rewrite scoring_cases.
  destruct (table_of fs (target_tsv a)) as [t|e].
  2:{ exists (diag_of fs (target_tsv a)), []. split; [apply diag_of_numbers |].
      left. exists e. now rewrite put_nil. }
  cbv zeta. rewrite say_say.
  assert (Hn : omap number_of
                 (diag_of fs (target_tsv a) ++ diag_of fs (second_tsv a)) = [])
    by now rewrite omap_app, !diag_of_numbers.
  destruct (table_of fs (second_tsv a)) as [s|e].
  2:{ exists (diag_of fs (target_tsv a) ++ diag_of fs (second_tsv a)), [].
      split; [exact Hn |]. left. exists e. now rewrite put_nil. }
  destruct (score_loop_world (mvalue X m) t s (dict_keys (snd t)) 1
              (say (diag_of fs (target_tsv a) ++ diag_of fs (second_tsv a))
                 (after_prepare a))) as [lines Hl].
  exists (diag_of fs (target_tsv a) ++ diag_of fs (second_tsv a)), lines.
  split; [exact Hn |].
  destruct (score_loop _ _ _ _ _ _ _ _) as [[v|e] w']; simpl in Hl; subst w'.
  - right. now exists v.
  - left. now exists e.
Qed.

(** The world of a run that scores every probe. *)
Lemma run_normal (fs : files) (m : mvalue_t) (t s : table) (scores : list Q) :
  parse_mvalue (fa_mvalue a) = Some m ->
  table_of fs (target_tsv a) = Ok t ->
  table_of fs (second_tsv a) = Ok s ->
  scored X a (mvalue X m) t s (dict_keys (snd t)) scores ->
  run X a fs =
  (Ok tt,
   World (diag_of fs (target_tsv a) ++ diag_of fs (second_tsv a) ++
          [PNum (running_min 1 scores)])
     (if doSingleOut a
      then Closed (WText header :: score_lines (dict_keys (snd t)) scores)
      else NotOpened)).
Proof.
  intros Hm Ht Hs Hsc.
  rewrite run_eq, Hm, (scoring_eq X a fs m t s _ Ht Hs).
  fold (loop_start a fs).
  rewrite (score_loop_ok X a _ t s _ _ Hsc 1 _ (loop_start_ready a fs)).
  f_equal. unfold say, shut, put, loop_start, say, after_prepare, lines_of, written.
  simpl. destruct (doSingleOut a); simpl; now rewrite <- app_assoc.
Qed.

End RunMore.

(** X14. When the curve evaluators return fractions in [0,1], every
    quantity of the scoring block of a scored probe is in [0,1]: the
    unfolded, folded, dissociated and hybridized fractions, the score and
    the quantity bad. *)
Theorem scoring_block_in_unit_interval (X : externals) (a : args)
    (mv : Q -> result Q) (t s : table) (name : string) (v : locals) :
  curves_in_range X ->
  probe X a mv t s name = Ok v ->
  Forall (fun q => (0 <= q /\ q <= 1)%Q)
    [unfold v; folded v; dissoc v; hybrid v; good v; bad v; score v].
Proof.
  intros [Hdu Hss] (tf & sf & Htf & Hsf & ->)%probe_ok.
  apply target_fraction_curve in Htf
    as (? & ? & ? & ? & ? & c1 & p1 & Hc1 & Hp1 & ->).
  apply second_fraction_ok in Hsf
    as (? & ? & ? & ? & ? & c2 & p2 & _ & _ & _ & _ & _ & Hc2 & Hp2 & ->).
  rewrite <- head_lookup in Hp1, Hp2.
  pose proof (Hss _ _ _ _ _ _ _ Hc2 _ Hp2) as [Hs0 Hs1].
  pose proof (Hdu _ _ _ _ _ _ _ _ _ _ _ _ _ _ _ Hc1 _ Hp1) as [Ht0 Ht1].
  simpl. repeat constructor; try assumption; try lra; nra.
Qed.

(** X15. In the exact arithmetic of the model the quantity bad is the
    complement of the score: for every pair of fractions, good + bad = 1. *)
Theorem bad_is_complement_of_good (sf tf : Q) :
  (good (combine sf tf) + bad (combine sf tf) == 1)%Q /\
  (score (combine sf tf) == 1 - bad (combine sf tf))%Q.
Proof. simpl. split; ring. Qed.

(** X16. A run prints exactly one number when it ends normally and none
    when it ends with an exception, whatever the inputs and the library. *)
Theorem one_number_or_none (X : externals) (a : args) (fs : files) :
  (fst (run X a fs) = Ok tt /\
   exists v, printed_numbers (snd (run X a fs)) = [v]) \/
  ((exists e, fst (run X a fs) = Raise e) /\
   printed_numbers (snd (run X a fs)) = []).
Proof.
  destruct (run_cases X a fs) as (ps & lines & Hps & [[e ->] | [v ->]]);
    cbn [fst snd].
  - right. split; [now exists e |].
    rewrite numbers_put, numbers_say. unfold printed_numbers, after_prepare.
    simpl. exact Hps.
  - left. split; [reflexivity |]. exists v.
    rewrite numbers_say, numbers_shut, numbers_put, numbers_say.
    unfold printed_numbers, after_prepare. simpl. now rewrite Hps.
Qed.

(** X17. Without an output path the stream is never opened.  With one, the
    header is the first thing written; the stream is closed when the run
    ends normally and is left open, never closed, when the run ends with an
    exception. *)
Theorem stream_closed_only_on_success (X : externals) (a : args) (fs : files) :
  exists lines,
    fout (snd (run X a fs)) =
    match doSingleOut a, fst (run X a fs) with
    | false, _ => NotOpened
    | true, Ok _ => Closed (WText header :: lines)
    | true, Raise _ => Opened (WText header :: lines)
    end.
Proof.
  destruct (run_cases X a fs) as (ps & lines & _ & [[e ->] | [v ->]]);
    exists lines; cbn [fst snd].
  - rewrite fout_put_prepared. now destruct (doSingleOut a).
  - unfold say at 1, shut. cbn [fout].
    destruct (doSingleOut a) eqn:Ha.
    + cbn [fout]. unfold written. rewrite fout_put_prepared. now rewrite Ha.
    + rewrite fout_put_prepared. now rewrite Ha.
Qed.

(** X18. A run that parses the m-value, loads both tables and scores every
    probe prints the diagnostics of the target table, those of the
    secondary table and then the minimum; with an output path the stream
    ends closed and holds the header followed by one line per key of the
    target table, in the order of the keys, each with the score of its
    probe. *)
Theorem normal_run_output (X : externals) (a : args) (fs : files)
    (m : mvalue_t) (t s : table) (scores : list Q) :
  parse_mvalue (fa_mvalue a) = Some m ->
  table_of fs (target_tsv a) = Ok t ->
  table_of fs (second_tsv a) = Ok s ->
  scored X a (mvalue X m) t s (dict_keys (snd t)) scores ->
  run X a fs =
  (Ok tt,
   World (diag_of fs (target_tsv a) ++ diag_of fs (second_tsv a) ++
          [PNum (running_min 1 scores)])
     (if doSingleOut a
      then Closed (WText header :: score_lines (dict_keys (snd t)) scores)
      else NotOpened)).
Proof. apply run_normal. Qed.

(** X19. When the target file gives no row (it is missing, empty, has a
    header only, or was dropped for a column mismatch) and the secondary
    table loads, the run ends normally and prints 1 without calling the
    library; the output file, when asked for, holds the header only. *)
Theorem empty_target_prints_one (X : externals) (a : args) (fs : files)
    (m : mvalue_t) (s : table) :
  parse_mvalue (fa_mvalue a) = Some m ->
  fst (read_tsv fs (target_tsv a)) = [] ->
  table_of fs (second_tsv a) = Ok s ->
  run X a fs =
  (Ok tt,
   World (diag_of fs (target_tsv a) ++ diag_of fs (second_tsv a) ++ [PNum 1])
     (if doSingleOut a then Closed [WText header] else NotOpened)).
Proof.
  intros Hm Hrows Hs.
  assert (Hsc : scored X a (mvalue X m) ([], []) s
                  (dict_keys (snd (([], []) : table))) [])
    by (unfold scored; simpl; constructor).
  exact (run_normal X a fs m ([], []) s [] Hm
           (table_of_empty fs _ Hrows) Hs Hsc).
Qed.

(** X20. When the target file has data lines that all fit a header
    without the field oligo_name, the run ends with the message naming that
    key before the secondary file is read and before any probe is scored:
    nothing is printed, and the output file, when asked for, holds the
    header only and is left open. *)
Theorem missing_key_column_ends_run (X : externals) (a : args) (fs : files)
    (m : mvalue_t) (first : string) (rest : list string) :
  parse_mvalue (fa_mvalue a) = Some m ->
  fs (target_tsv a) = Some (first :: rest) ->
  rest <> [] ->
  forallb (fits (header_of first)) rest = true ->
  "oligo_name" ∉ header_of first ->
  run X a fs =
  (Raise (SystemExit (key_error "oligo_name")),
   World [] (if doSingleOut a then Opened [WText header] else NotOpened)).
Proof.
  intros Hm Hf Hne Hfit Hk.
  rewrite run_eq, Hm, scoring_cases.
  rewrite (proj2 (table_of_key fs _ first rest Hf Hfit) Hk Hne).
  unfold diag_of. rewrite (read_tsv_lines fs _ first rest Hf), Hfit.
  unfold say, after_prepare. reflexivity.
Qed.

(** ** Splitting on a separator *)

Section Split.

Variable sep : string.
Hypothesis sep_nonempty : sep <> "".

(** The characters of an occurrence still to pass are skipped. *)
Lemma split_go_skip (q s : string) :
  PyStr.split_go sep (String.length q) (String.append q s) =
  PyStr.split_go sep 0 s.
Proof. induction q as [|c q IH]; simpl; [reflexivity | exact IH]. Qed.

Lemma drop_chars_append (q s : string) :
  drop_chars (String.length q) (String.append q s) = s.
Proof. induction q as [|c q IH]; simpl; [reflexivity | exact IH]. Qed.

Lemma after_starts (s : string) :
  PyStr.starts_with sep s = true ->
  after sep s = drop_chars (String.length sep) s.
Proof.
  intros H. destruct s as [|c s]; simpl.
  - destruct sep; [contradiction | discriminate H].
  - now rewrite H.
Qed.

(** The first field, and the fields of what follows the first occurrence. *)
Lemma split_go_unfold (s : string) :
  PyStr.split_go sep 0 s =
  if PyStr.contains sep s
  then before sep s :: PyStr.split_go sep 0 (after sep s)
  else [s].
Proof.
  induction s as [|c s IH].
  - cbn [PyStr.split_go]. now rewrite contains_empty.
  - cbn [PyStr.split_go PyStr.contains before after].
    destruct (PyStr.starts_with sep (String c s)) eqn:E; cbn [orb].
    + f_equal. apply starts_with_iff in E as [r Hr].
      destruct sep as [|c' sep'] eqn:Es; [contradiction |].
      simpl in Hr. injection Hr as <- ->.
      cbn [String.length]. rewrite Nat.sub_1_r. cbn [Nat.pred].
      rewrite <- Es. rewrite split_go_skip.
      cbn [drop_chars]. now rewrite drop_chars_append.
    + rewrite IH. destruct (PyStr.contains sep s); reflexivity.
Qed.

(** The text is the first field, the separator and what follows. *)
Lemma before_after (s : string) :
  PyStr.contains sep s = true ->
  s = String.append (before sep s) (String.append sep (after sep s)).
Proof.
  induction s as [|c s IH].
  - now rewrite contains_empty.
  - cbn [PyStr.contains before after].
    destruct (PyStr.starts_with sep (String c s)) eqn:E; cbn [orb].
    + intros _. apply starts_with_iff in E as [r Hr]. rewrite Hr at 2.
      rewrite drop_chars_append. exact Hr.
    + intros H. simpl. now rewrite <- (IH H).
Qed.

Lemma after_shorter (s : string) :
  PyStr.contains sep s = true ->
  (String.length (after sep s) < String.length s)%nat.
Proof.
  intros H. pose proof (before_after s H) as Hs.
  apply (f_equal String.length) in Hs. rewrite !length_append in Hs.
  destruct sep; [contradiction | simpl in Hs; lia].
Qed.

Lemma join_cons (x : string) (l : list string) :
  l <> [] -> join sep (x :: l) = String.append x (String.append sep (join sep l)).
Proof. now destruct l. Qed.

(** Joining the fields with the separator gives the text back, and no
    field holds the separator. *)
Lemma split_join (n : nat) :
  forall s, (String.length s <= n)%nat ->
    join sep (PyStr.split_go sep 0 s) = s /\
    Forall (fun f => PyStr.contains sep f = false) (PyStr.split_go sep 0 s).
Proof.
  induction n as [|n IH]; intros s Hn; rewrite split_go_unfold.
  - destruct s; [|simpl in Hn; lia]. rewrite contains_empty by assumption.
    split; [reflexivity | now repeat constructor; apply contains_empty].
  - destruct (PyStr.contains sep s) eqn:E.
    + pose proof (after_shorter s E) as Hlt.
      destruct (IH (after sep s)) as [Hj Hc]; [lia |].
      split.
      * rewrite join_cons by apply split_go_nonempty.
        rewrite Hj. symmetry. now apply before_after.
      * constructor; [now apply before_clean | exact Hc].
    + split; [reflexivity | now repeat constructor].
Qed.

End Split.

(** X21. The field names of a table, joined by TAB, give back the first
    line as stripped: no character of it is lost or added; and no field
    name holds a TAB. *)
Theorem header_fields_rejoin (first : string) :
  join tab (header_of first) = PyStr.strip first /\
  Forall (fun f => PyStr.contains tab f = false) (header_of first).
Proof.
  unfold header_of.
  apply (split_join tab ltac:(discriminate) (String.length (PyStr.strip first))).
  lia.
Qed.

(** ** Failures in the loop *)

Section LoopMore.

Variable X : externals.
Variable a : args.

(** The secondary side of a probe depends on the fields read for it only. *)
Lemma second_fraction_frame (s s' : table) (name : string) :
  (forall f, field_of s name f = field_of s' name f) ->
  second_fraction X a s name = second_fraction X a s' name.
Proof. intros H. unfold second_fraction. now rewrite !H. Qed.

Lemma score_loop_frame (mv : Q -> result Q) (t s s' : table)
    (keys : list string) :
  (forall name f, name ∈ keys -> field_of s name f = field_of s' name f) ->
  forall m w, score_loop X a mv t s m keys w = score_loop X a mv t s' m keys w.
Proof.
  induction keys as [|k keys IH]; intros H m w; [reflexivity |].
  assert (Ht : turn X a mv t s m k w = turn X a mv t s' m k w).
  { unfold turn, probe.
    now rewrite (second_fraction_frame s s' k)
      by (intros f; apply H, list_elem_of_here). }
  cbn [score_loop]. unfold bind. rewrite Ht.
  destruct (turn X a mv t s' m k w) as [[m'|e] w']; [|reflexivity].
  apply IH. intros name f Hin. now apply H, list_elem_of_further.
Qed.

(** The run when a probe raises after others were scored. *)
Lemma run_raise (fs : files) (m : mvalue_t) (t s : table)
    (pre post : list string) (p : string) (scores : list Q) (e : exn) :
  parse_mvalue (fa_mvalue a) = Some m ->
  table_of fs (target_tsv a) = Ok t ->
  table_of fs (second_tsv a) = Ok s ->
  dict_keys (snd t) = pre ++ p :: post ->
  scored X a (mvalue X m) t s pre scores ->
  probe X a (mvalue X m) t s p = Raise e ->
  run X a fs =
  (Raise e,
   World (diag_of fs (target_tsv a) ++ diag_of fs (second_tsv a))
     (if doSingleOut a then Opened (WText header :: score_lines pre scores)
      else NotOpened)).
Proof.
  intros Hm Ht Hs Hk Hpre Hp.
  rewrite run_eq, Hm, (scoring_eq X a fs m t s _ Ht Hs), Hk.
  fold (loop_start a fs).
  rewrite (score_loop_raise X a _ t s pre scores p post e Hpre Hp 1 _
             (loop_start_ready a fs)).
  f_equal. unfold put, loop_start, say, after_prepare, lines_of. simpl.
  now destruct (doSingleOut a).
Qed.

(** The keys of a loaded table with a row are not empty. *)
Lemma first_seen_head (x : string) (l : list string) :
  exists post, first_seen (x :: l) = x :: post.
Proof.
  unfold first_seen. simpl. unfold see at 2. simpl.
  assert (H : forall l acc, exists post, foldl see (x :: acc) l = x :: post).
  { clear l. induction l as [|y l IH]; intros acc; simpl; [now eexists |].
    unfold see at 2. destruct (existsb _ _); [apply IH |].
    change ((x :: acc) ++ [y]) with (x :: (acc ++ [y])). apply IH. }
  apply H.
Qed.

End LoopMore.

(** X22. The probe loop reads the secondary table only through the fields
    of the probes that are keys of the target table: two secondary tables
    that agree on those fields give the same loop, whatever else they hold
    (probes the target table does not have, further rows of a group). *)
Theorem secondary_only_probes_are_ignored (X : externals) (a : args)
    (mv : Q -> result Q) (t s s' : table) (keys : list string) (m : Q)
    (w : world) :
  (forall name f, name ∈ keys -> field_of s name f = field_of s' name f) ->
  score_loop X a mv t s m keys w = score_loop X a mv t s' m keys w.
Proof. intros H. now apply score_loop_frame. Qed.

(** X23. There is no recovery from a failure in the loop: when a probe
    raises after the probes before it were scored, the run ends with that
    exception; the later probes are not scored, only the diagnostics of the
    readers were printed, and the output stream, when asked for, holds the
    header and the lines of the earlier probes and is left open. *)
Theorem first_failure_ends_run (X : externals) (a : args) (fs : files)
    (m : mvalue_t) (t s : table) (pre post : list string) (p : string)
    (scores : list Q) (e : exn) :
  parse_mvalue (fa_mvalue a) = Some m ->
  table_of fs (target_tsv a) = Ok t ->
  table_of fs (second_tsv a) = Ok s ->
  dict_keys (snd t) = pre ++ p :: post ->
  scored X a (mvalue X m) t s pre scores ->
  probe X a (mvalue X m) t s p = Raise e ->
  run X a fs =
  (Raise e,
   World (diag_of fs (target_tsv a) ++ diag_of fs (second_tsv a))
     (if doSingleOut a then Opened (WText header :: score_lines pre scores)
      else NotOpened)).
Proof. apply run_raise. Qed.

(** X24. When the target file has data lines that all fit a header with
    the field oligo_name and without the field dH, and the secondary table
    loads, the run ends with KeyError on dH at the first probe: no probe is
    scored and no line is written after the header. *)
Theorem missing_dH_column_raises (X : externals) (a : args) (fs : files)
    (m : mvalue_t) (s : table) (first : string) (rest : list string) :
  parse_mvalue (fa_mvalue a) = Some m ->
  fs (target_tsv a) = Some (first :: rest) ->
  rest <> [] ->
  forallb (fits (header_of first)) rest = true ->
  "oligo_name" ∈ header_of first ->
  "dH" ∉ header_of first ->
  table_of fs (second_tsv a) = Ok s ->
  run X a fs =
  (Raise (KeyError "dH"),
   World (diag_of fs (second_tsv a))
     (if doSingleOut a then Opened [WText header] else NotOpened)).
Proof.
  intros Hm Hf Hne Hfit Hkey HdH Hs.
  destruct (proj1 (table_of_key fs _ first rest Hf Hfit) Hkey) as [[sigma' outd] Ht].
  assert (Hd : "," <> "") by discriminate.
  pose proof Ht as Hload. unfold table_of in Hload.
  rewrite (read_tsv_lines fs _ first rest Hf), Hfit in Hload. cbn [fst] in Hload.
  set (rows := map (fun l => fill_row ∅ (header_of first) (tokens l)) rest) in *.
  destruct (reparse_loop_groups "oligo_name" "," Hd rows _ rows [] sigma' outd []
              (fun d => eq_refl) (fun i => eq_refl) Hload) as (_ & Hk & Hall).
  simpl in Hk.
  (* the first row gives the first key *)
  destruct rest as [|line0 rest']; [contradiction |].
  assert (Hlen : length rows = S (length rest')) by (unfold rows; simpl; now rewrite length_map).
  rewrite Hlen in Hk, Hall, Hload. cbn [seq] in Hk, Hall.
  apply Forall_cons in Hall as [H0 _].
  apply (proj2 (id_of_has_key "oligo_name" "," rows 0%nat)) in H0 as [p Hp].
  cbn [omap list_omap] in Hk.
  rewrite Hp in Hk.
  destruct (first_seen_head p (omap (id_of "oligo_name" "," rows) (seq 1 (length rest'))))
    as [post Hpost].
  unfold first_seen in Hpost. rewrite Hpost in Hk.
  (* its dH field is missing *)
  destruct (first_row_fields rows _ "oligo_name" "," sigma' outd p Hd Hload)
    as (d & r & _ & Hr & Hfield).
  { rewrite Hk. apply list_elem_of_here. }
  assert (Hrow : r !! "dH" = None).
  { apply list_elem_of_lookup_2 in Hr. unfold rows in Hr.
    apply list_elem_of_fmap in Hr as (l & -> & _).
    rewrite fill_row_notin by exact HdH. apply lookup_empty. }
  assert (Hprobe : probe X a (mvalue X m) (sigma', outd) s p = Raise (KeyError "dH")).
  { unfold probe, target_fraction. rewrite (Hfield "dH").
    rewrite normalise_other by discriminate. now rewrite Hrow. }
  assert (Hsc : scored X a (mvalue X m) (sigma', outd) s [] []) by constructor.
  rewrite (run_raise X a fs m (sigma', outd) s [] post p [] _ Hm Ht Hs Hk Hsc Hprobe).
  unfold diag_of at 1. rewrite (read_tsv_lines fs _ first _ Hf), Hfit.
  reflexivity.
Qed.

(** ** Instances of the further properties *)

Section MoreInstances.

Import Sample.

(** Instance of X1: a header that names dH twice; the last token wins. *)
Lemma rows_follow_lines_witness :
  Sample2.disk "twice.tsv" =
  Some [line ["dH"; "oligo_name"; "dH"]; "-80 p1 -81"] /\
  forallb (fits (header_of (line ["dH"; "oligo_name"; "dH"]))) ["-80 p1 -81"]
  = true /\
  length (fst (read_tsv Sample2.disk "twice.tsv")) = 1%nat /\
  exists r : row,
    fst (read_tsv Sample2.disk "twice.tsv") !! 0%nat = Some r /\
    r !! "dH" = Some "-81" /\ r !! "Seq" = None.
Proof.
  assert (H1 : Sample2.disk "twice.tsv" =
               Some [line ["dH"; "oligo_name"; "dH"]; "-80 p1 -81"])
    by reflexivity.
  assert (H2 : forallb (fits (header_of (line ["dH"; "oligo_name"; "dH"])))
                 ["-80 p1 -81"] = true) by (vm_compute; reflexivity).
  split; [exact H1 |]. split; [exact H2 |].
  destruct (rows_follow_lines Sample2.disk "twice.tsv" _ _ H1 H2)
    as (_ & Hlen & Hrows).
  split; [exact Hlen |].
  destruct (Hrows 0%nat "-80 p1 -81" eq_refl) as (r & Hr & Hbind & Hnone).
  exists r. split; [exact Hr |]. split.
  - apply (Hbind 2%nat); [vm_compute; reflexivity | vm_compute; reflexivity |].
    intros [|[|[|j]]] Hj; try lia; vm_compute; discriminate.
  - apply Hnone. apply (bool_decide_unpack _). vm_compute. exact I.
Defined.

(** Instance of X2: a table with a line of blanks between two rows. *)
Lemma blank_line_discards_table_witness :
  Sample2.disk "gap.tsv" =
  Some [line ["oligo_name"; "dH"]; "p1 -80"; "   "; "p2 -70"] /\
  "   " ∈ ["p1 -80"; "   "; "p2 -70"] /\
  PyStr.strip "   " = "" /\
  read_tsv Sample2.disk "gap.tsv" = ([], [PStr (column_error "gap.tsv")]).
Proof.
  assert (H1 : Sample2.disk "gap.tsv" =
               Some [line ["oligo_name"; "dH"]; "p1 -80"; "   "; "p2 -70"])
    by reflexivity.
  assert (H2 : "   " ∈ ["p1 -80"; "   "; "p2 -70"])
    by apply list_elem_of_further, list_elem_of_here.
  assert (H3 : PyStr.strip "   " = "") by reflexivity.
  split; [exact H1 |]. split; [exact H2 |]. split; [exact H3 |].
  exact (blank_line_discards_table Sample2.disk "gap.tsv" _ _ _ H1 H2 H3).
Defined.

(** Instance of X3: the sequence of the first row of the sample table. *)
Lemma row_values_are_tokens_witness :
  ({[ "oligo_name" := "p1,v2"; "dH" := "-80"; "dS" := "-200";
      "Seq" := "GCGCGCGC" ]} : row) ∈ fst (read_tsv disk "target.tsv") /\
  ({[ "oligo_name" := "p1,v2"; "dH" := "-80"; "dS" := "-200";
      "Seq" := "GCGCGCGC" ]} : row) !! "Seq" = Some "GCGCGCGC" /\
  is_token "GCGCGCGC".
Proof.
  assert (H1 : ({[ "oligo_name" := "p1,v2"; "dH" := "-80"; "dS" := "-200";
                   "Seq" := "GCGCGCGC" ]} : row)
               ∈ fst (read_tsv disk "target.tsv")).
  { apply list_elem_of_lookup. exists 0%nat. vm_compute. reflexivity. }
  assert (H2 : ({[ "oligo_name" := "p1,v2"; "dH" := "-80"; "dS" := "-200";
                   "Seq" := "GCGCGCGC" ]} : row) !! "Seq" = Some "GCGCGCGC")
    by (vm_compute; reflexivity).
  split; [exact H1 |]. split; [exact H2 |].
  exact (row_values_are_tokens disk "target.tsv" _ "Seq" "GCGCGCGC" H1 H2).
Defined.

Lemma two_rows_valid : forall d, d ∈ [0; 1]%nat -> is_Some (two_rows !! d).
Proof.
  intros d [->|[->|H]%elem_of_cons]%elem_of_cons;
    [now eexists | now eexists | now apply elem_of_nil in H].
Qed.

Lemma two_rows_loop :
  reparse_tsv_list two_rows [0; 1]%nat "oligo_name" "," =
  Ok (two_rows_after, [("probe1", [0; 1]%nat)]).
Proof. vm_compute. reflexivity. Qed.

(** Instance of X4: two rows that hold the key. *)
Lemma aggregation_needs_key_witness :
  "," <> "" /\
  (forall d, d ∈ [0; 1]%nat -> is_Some (two_rows !! d)) /\
  Forall (has_key "oligo_name" two_rows) [0; 1]%nat /\
  exists t, reparse_tsv_list two_rows [0; 1]%nat "oligo_name" "," = Ok t.
Proof.
  assert (H1 : "," <> "") by discriminate.
  assert (H3 : Forall (has_key "oligo_name" two_rows) [0; 1]%nat).
  { repeat constructor.
    - eexists _, "probe1,v2". split; [reflexivity | vm_compute; reflexivity].
    - eexists _, "probe1". split; [reflexivity | vm_compute; reflexivity]. }
  split; [exact H1 |]. split; [exact two_rows_valid |]. split; [exact H3 |].
  exact (proj1 (aggregation_needs_key two_rows [0; 1]%nat "oligo_name" ","
                  H1 two_rows_valid) H3).
Defined.

(** Instance of X5: two rows with the same identifier give one key. *)
Lemma keys_in_first_seen_order_witness :
  "," <> "" /\
  reparse_tsv_list two_rows [0; 1]%nat "oligo_name" "," =
  Ok (two_rows_after, [("probe1", [0; 1]%nat)]) /\
  dict_keys [("probe1", [0; 1]%nat)] =
  first_seen (omap (id_of "oligo_name" "," two_rows) [0; 1]%nat) /\
  first_seen (omap (id_of "oligo_name" "," two_rows) [0; 1]%nat) = ["probe1"].
Proof.
  assert (H1 : "," <> "") by discriminate.
  split; [exact H1 |]. split; [exact two_rows_loop |].
  split; [|vm_compute; reflexivity].
  exact (proj1 (keys_in_first_seen_order two_rows [0; 1]%nat "oligo_name" ","
                  two_rows_after _ H1 two_rows_loop)).
Defined.

(** Instance of X6: the group of probe1 and the absent group of probe2. *)
Lemma groups_list_members_witness :
  "," <> "" /\
  reparse_tsv_list two_rows [0; 1]%nat "oligo_name" "," =
  Ok (two_rows_after, [("probe1", [0; 1]%nat)]) /\
  dict_get "probe2" [("probe1", [0; 1]%nat)] =
  group_of (members "oligo_name" "," two_rows "probe2" [0; 1]%nat) /\
  members "oligo_name" "," two_rows "probe1" [0; 1]%nat = [0; 1]%nat.
Proof.
  assert (H1 : "," <> "") by discriminate.
  split; [exact H1 |]. split; [exact two_rows_loop |].
  split; [|vm_compute; reflexivity].
  exact (groups_list_members two_rows [0; 1]%nat "oligo_name" ","
           two_rows_after _ H1 two_rows_loop "probe2").
Defined.

(** Instance of X7: the group of probe1. *)
Lemma groups_are_keyed_witness :
  "," <> "" /\
  reparse_tsv_list two_rows [0; 1]%nat "oligo_name" "," =
  Ok (two_rows_after, [("probe1", [0; 1]%nat)]) /\
  dict_get "probe1" [("probe1", [0; 1]%nat)] = Some [0; 1]%nat /\
  PyStr.contains "," "probe1" = false /\ [0; 1]%nat <> [] /\
  forall d, d ∈ [0; 1]%nat ->
    exists r' : row, two_rows_after !! d = Some r' /\
                     r' !! "oligo_name" = Some "probe1".
Proof.
  assert (H1 : "," <> "") by discriminate.
  assert (H3 : dict_get "probe1" [("probe1", [0; 1]%nat)] = Some [0; 1]%nat)
    by reflexivity.
  split; [exact H1 |]. split; [exact two_rows_loop |]. split; [exact H3 |].
  exact (groups_are_keyed two_rows [0; 1]%nat "oligo_name" ","
           two_rows_after _ H1 two_rows_loop "probe1" _ H3).
Defined.

(** Instance of X8: the fields read for probe1 are those of row 0. *)
Lemma loop_reads_first_row_witness :
  "," <> "" /\
  reparse_tsv_list two_rows [0; 1]%nat "oligo_name" "," =
  Ok (two_rows_after, [("probe1", [0; 1]%nat)]) /\
  "probe1" ∈ dict_keys [("probe1", [0; 1]%nat)] /\
  exists d r,
    head (members "oligo_name" "," two_rows "probe1" [0; 1]%nat) = Some d /\
    two_rows !! d = Some r /\
    forall f, field_of (two_rows_after, [("probe1", [0; 1]%nat)]) "probe1" f =
              of_option (KeyError f) (normalise "oligo_name" "," r !! f).
Proof.
  assert (H1 : "," <> "") by discriminate.
  assert (H3 : "probe1" ∈ dict_keys [("probe1", [0; 1]%nat)])
    by apply list_elem_of_here.
  split; [exact H1 |]. split; [exact two_rows_loop |]. split; [exact H3 |].
  exact (loop_reads_first_row two_rows [0; 1]%nat "oligo_name" ","
           two_rows_after _ "probe1" H1 two_rows_loop H3).
Defined.

(** Instance of X9: a table whose header lacks oligo_name. *)
Lemma table_needs_oligo_name_witness :
  Sample2.disk "nokey.tsv" = Some [line ["name"; "dH"]; "p1 -80"] /\
  forallb (fits (header_of (line ["name"; "dH"]))) ["p1 -80"] = true /\
  ("oligo_name" ∉ header_of (line ["name"; "dH"])) /\
  table_of Sample2.disk "nokey.tsv" =
  Raise (SystemExit (key_error "oligo_name")).
Proof.
  assert (H1 : Sample2.disk "nokey.tsv" = Some [line ["name"; "dH"]; "p1 -80"])
    by reflexivity.
  assert (H2 : forallb (fits (header_of (line ["name"; "dH"]))) ["p1 -80"]
               = true) by (vm_compute; reflexivity).
  assert (H3 : "oligo_name" ∉ header_of (line ["name"; "dH"]))
    by (apply (bool_decide_unpack _); vm_compute; exact I).
  split; [exact H1 |]. split; [exact H2 |]. split; [exact H3 |].
  apply (proj2 (table_needs_oligo_name Sample2.disk "nokey.tsv" _ _ H1 H2) H3).
  discriminate.
Defined.

(** Instance of X10: the sequence of p1 in the sample target table. *)
Lemma gc_fraction_defined_witness :
  table_of disk "target.tsv" = Ok (loaded "target.tsv") /\
  field_of (loaded "target.tsv") "p1" "Seq" = Ok "GCGCGCGC" /\
  exists q, fgc_of "GCGCGCGC" = Ok q /\ (0 <= q /\ q <= 1)%Q.
Proof.
  assert (H1 : table_of disk "target.tsv" = Ok (loaded "target.tsv"))
    by (vm_compute; reflexivity).
  assert (H2 : field_of (loaded "target.tsv") "p1" "Seq" = Ok "GCGCGCGC")
    by (vm_compute; reflexivity).
  split; [exact H1 |]. split; [exact H2 |].
  exact (gc_fraction_defined disk "target.tsv" _ "p1" "GCGCGCGC" H1 H2).
Defined.

(** Instance of X11: the default m-value and a linear one. *)
Lemma numerals_are_accepted_witness :
  PyFloat.decimal "0.1734" = Some 0.1734%Q /\
  parse_mvalue "0.1734" = Some (Constant "0.1734") /\
  (forall L, mvalue lib (Constant "0.1734") L = Ok 0.1734%Q) /\
  PyFloat.decimal "2" = Some 2%Q /\
  PyFloat.is_sign "-" = true /\
  PyFloat.decimal "-.5" = Some (- 0.5)%Q /\
  parse_mvalue "2L-.5" = Some (Linear "2" "-.5") /\
  (forall L, mvalue lib (Linear "2" "-.5") L = Ok (2 * L + - 0.5)%Q).
Proof.
  assert (H1 : PyFloat.decimal "0.1734" = Some 0.1734%Q) by reflexivity.
  assert (H2 : PyFloat.decimal "2" = Some 2%Q) by reflexivity.
  assert (H3 : PyFloat.is_sign "-" = true) by reflexivity.
  assert (H4 : PyFloat.decimal "-.5" = Some (- 0.5)%Q) by reflexivity.
  destruct (numerals_are_accepted lib) as [Hc Hl].
  destruct (Hc "0.1734" _ H1) as [Hp Hv].
  destruct (Hl "2" "-"%char ".5" _ _ H2 H3 H4) as [Hp' Hv'].
  repeat split; assumption.
Defined.

(** Instance of X12: a number written with an exponent. *)
Lemma other_characters_are_rejected_witness :
  PyFloat.all_chars mvalue_char "1e-3" = false /\
  parse_mvalue "1e-3" = None /\
  fst (run lib (cmd "second.tsv" "1e-3" None) disk) =
  Raise (SystemExit mvalue_error).
Proof.
  assert (H : PyFloat.all_chars mvalue_char "1e-3" = false) by reflexivity.
  split; [exact H |].
  exact (other_characters_are_rejected lib (cmd "second.tsv" "1e-3" None)
           disk H).
Defined.

(** Instance of X14: the probe p1 of the sample tables. *)
Lemma scoring_block_in_unit_interval_witness :
  curves_in_range lib /\
  probe lib (cmd "second.tsv" "0.1734" None) (mvalue lib (Constant "0.1734"))
    (loaded "target.tsv") (loaded "second.tsv") "p1" = Ok (combine 0.5 0.25) /\
  Forall (fun q => (0 <= q /\ q <= 1)%Q)
    [unfold (combine 0.5 0.25); folded (combine 0.5 0.25);
     dissoc (combine 0.5 0.25); hybrid (combine 0.5 0.25);
     good (combine 0.5 0.25); bad (combine 0.5 0.25);
     score (combine 0.5 0.25)].
Proof.
  assert (H : probe lib (cmd "second.tsv" "0.1734" None)
                (mvalue lib (Constant "0.1734")) (loaded "target.tsv")
                (loaded "second.tsv") "p1" = Ok (combine 0.5 0.25))
    by (vm_compute; reflexivity).
  split; [exact lib_in_range |]. split; [exact H |].
  exact (scoring_block_in_unit_interval lib _ _ _ _ "p1" _ lib_in_range H).
Defined.

Lemma sample_scored :
  scored lib (cmd "second.tsv" "0.1734" (Some "scores.tsv"))
    (mvalue lib (Constant "0.1734")) (loaded "target.tsv")
    (loaded "second.tsv") (dict_keys (snd (loaded "target.tsv")))
    [0.375%Q; 0.25%Q].
Proof.
  change (dict_keys (snd (loaded "target.tsv")))
    with (dict_keys (snd (loaded "target.tsv"))).
  assert (Hk : dict_keys (snd (loaded "target.tsv")) = ["p1"; "p2"])
    by (vm_compute; reflexivity).
  rewrite Hk. repeat constructor.
  - exists (combine 0.5 0.25). split; vm_compute; reflexivity.
  - exists (combine 0.5 0.5). split; vm_compute; reflexivity.
Qed.

(** Instance of X18: the sample run with an output path. *)
Lemma normal_run_output_witness :
  parse_mvalue "0.1734" = Some (Constant "0.1734") /\
  table_of disk "target.tsv" = Ok (loaded "target.tsv") /\
  table_of disk "second.tsv" = Ok (loaded "second.tsv") /\
  run lib (cmd "second.tsv" "0.1734" (Some "scores.tsv")) disk =
  (Ok tt,
   World (diag_of disk "target.tsv" ++ diag_of disk "second.tsv" ++
          [PNum (running_min 1 [0.375%Q; 0.25%Q])])
     (Closed (WText header ::
              score_lines (dict_keys (snd (loaded "target.tsv")))
                [0.375%Q; 0.25%Q]))).
Proof.
  assert (H1 : parse_mvalue "0.1734" = Some (Constant "0.1734"))
    by (vm_compute; reflexivity).
  assert (H2 : table_of disk "target.tsv" = Ok (loaded "target.tsv"))
    by (vm_compute; reflexivity).
  assert (H3 : table_of disk "second.tsv" = Ok (loaded "second.tsv"))
    by (vm_compute; reflexivity).
  split; [exact H1 |]. split; [exact H2 |]. split; [exact H3 |].
  exact (normal_run_output lib (cmd "second.tsv" "0.1734" (Some "scores.tsv"))
           disk _ _ _ _ H1 H2 H3 sample_scored).
Defined.

(** Instance of X19: a target path that names no file. *)
Lemma empty_target_prints_one_witness :
  parse_mvalue "0.1734" = Some (Constant "0.1734") /\
  fst (read_tsv disk "absent.tsv") = [] /\
  table_of disk "second.tsv" = Ok (loaded "second.tsv") /\
  run lib (Args "absent.tsv" "second.tsv" 37 DNA_DNA 0.25e-6 50e-3 0 35
             mcconaughy "0.1734" (Some "scores.tsv")) disk =
  (Ok tt,
   World (diag_of disk "absent.tsv" ++ diag_of disk "second.tsv" ++ [PNum 1])
     (Closed [WText header])).
Proof.
  assert (H1 : parse_mvalue "0.1734" = Some (Constant "0.1734"))
    by (vm_compute; reflexivity).
  assert (H2 : fst (read_tsv disk "absent.tsv") = []) by reflexivity.
  assert (H3 : table_of disk "second.tsv" = Ok (loaded "second.tsv"))
    by (vm_compute; reflexivity).
  split; [exact H1 |]. split; [exact H2 |]. split; [exact H3 |].
  exact (empty_target_prints_one lib
           (Args "absent.tsv" "second.tsv" 37 DNA_DNA 0.25e-6 50e-3 0 35
              mcconaughy "0.1734" (Some "scores.tsv")) disk _ _ H1 H2 H3).
Defined.

(** Instance of X20: a target table whose header lacks oligo_name. *)
Lemma missing_key_column_ends_run_witness :
  parse_mvalue "0.1734" = Some (Constant "0.1734") /\
  Sample2.disk "nokey.tsv" = Some [line ["name"; "dH"]; "p1 -80"] /\
  ["p1 -80"] <> [] /\
  forallb (fits (header_of (line ["name"; "dH"]))) ["p1 -80"] = true /\
  ("oligo_name" ∉ header_of (line ["name"; "dH"])) /\
  run lib (Args "nokey.tsv" "second.tsv" 37 DNA_DNA 0.25e-6 50e-3 0 35
             mcconaughy "0.1734" (Some "scores.tsv")) Sample2.disk =
  (Raise (SystemExit (key_error "oligo_name")),
   World [] (Opened [WText header])).
Proof.
  assert (H1 : parse_mvalue "0.1734" = Some (Constant "0.1734"))
    by (vm_compute; reflexivity).
  assert (H2 : Sample2.disk "nokey.tsv" = Some [line ["name"; "dH"]; "p1 -80"])
    by reflexivity.
  assert (H3 : ["p1 -80"] <> []) by discriminate.
  assert (H4 : forallb (fits (header_of (line ["name"; "dH"]))) ["p1 -80"]
               = true) by (vm_compute; reflexivity).
  assert (H5 : "oligo_name" ∉ header_of (line ["name"; "dH"]))
    by (apply (bool_decide_unpack _); vm_compute; exact I).
  split; [exact H1 |]. split; [exact H2 |]. split; [exact H3 |].
  split; [exact H4 |]. split; [exact H5 |].
  exact (missing_key_column_ends_run lib
           (Args "nokey.tsv" "second.tsv" 37 DNA_DNA 0.25e-6 50e-3 0 35
              mcconaughy "0.1734" (Some "scores.tsv")) Sample2.disk _ _ _
           H1 H2 H3 H4 H5).
Defined.

(** Instance of X22: the secondary tables with and without the probe p2,
    for a loop over p1 alone. *)
Lemma secondary_only_probes_are_ignored_witness :
  (forall name f, name ∈ ["p1"] ->
     field_of (loaded "second.tsv") name f =
     field_of (loaded "short.tsv") name f) /\
  score_loop lib (cmd "second.tsv" "0.1734" None)
    (mvalue lib (Constant "0.1734")) (loaded "target.tsv")
    (loaded "second.tsv") 1 ["p1"] world0 =
  score_loop lib (cmd "second.tsv" "0.1734" None)
    (mvalue lib (Constant "0.1734")) (loaded "target.tsv")
    (loaded "short.tsv") 1 ["p1"] world0.
Proof.
  assert (H : forall name f, name ∈ ["p1"] ->
            field_of (loaded "second.tsv") name f =
            field_of (loaded "short.tsv") name f).
  { intros name f ->%list_elem_of_singleton. reflexivity. }
  split; [exact H |].
  exact (secondary_only_probes_are_ignored lib _ _ _ _ _ ["p1"] 1 world0 H).
Defined.

(** Instance of X23: the probe p2 raises after p1 was scored. *)
Lemma first_failure_ends_run_witness :
  parse_mvalue "0.1734" = Some (Constant "0.1734") /\
  table_of disk "target.tsv" = Ok (loaded "target.tsv") /\
  table_of disk "short.tsv" = Ok (loaded "short.tsv") /\
  dict_keys (snd (loaded "target.tsv")) = ["p1"] ++ "p2" :: [] /\
  probe lib (cmd "short.tsv" "0.1734" (Some "scores.tsv"))
    (mvalue lib (Constant "0.1734")) (loaded "target.tsv")
    (loaded "short.tsv") "p2" = Raise (KeyError "p2") /\
  run lib (cmd "short.tsv" "0.1734" (Some "scores.tsv")) disk =
  (Raise (KeyError "p2"),
   World (diag_of disk "target.tsv" ++ diag_of disk "short.tsv")
     (Opened (WText header :: score_lines ["p1"] [0.375%Q]))).
Proof.
  assert (H1 : parse_mvalue "0.1734" = Some (Constant "0.1734"))
    by (vm_compute; reflexivity).
  assert (H2 : table_of disk "target.tsv" = Ok (loaded "target.tsv"))
    by (vm_compute; reflexivity).
  assert (H3 : table_of disk "short.tsv" = Ok (loaded "short.tsv"))
    by (vm_compute; reflexivity).
  assert (H4 : dict_keys (snd (loaded "target.tsv")) = ["p1"] ++ "p2" :: [])
    by (vm_compute; reflexivity).
  assert (H5 : scored lib (cmd "short.tsv" "0.1734" (Some "scores.tsv"))
                 (mvalue lib (Constant "0.1734")) (loaded "target.tsv")
                 (loaded "short.tsv") ["p1"] [0.375%Q]).
  { repeat constructor. exists (combine 0.5 0.25).
    split; vm_compute; reflexivity. }
  assert (H6 : probe lib (cmd "short.tsv" "0.1734" (Some "scores.tsv"))
                 (mvalue lib (Constant "0.1734")) (loaded "target.tsv")
                 (loaded "short.tsv") "p2" = Raise (KeyError "p2"))
    by (vm_compute; reflexivity).
  split; [exact H1 |]. split; [exact H2 |]. split; [exact H3 |].
  split; [exact H4 |]. split; [exact H6 |].
  exact (first_failure_ends_run lib
           (cmd "short.tsv" "0.1734" (Some "scores.tsv")) disk _ _ _
           ["p1"] [] "p2" [0.375%Q] _ H1 H2 H3 H4 H5 H6).
Defined.

(** Instance of X24: a target table with the fields oligo_name and Seq. *)
Lemma missing_dH_column_raises_witness :
  parse_mvalue "0.1734" = Some (Constant "0.1734") /\
  Sample2.disk "nodh.tsv" = Some [line ["oligo_name"; "Seq"]; "p1 GCGC"] /\
  ["p1 GCGC"] <> [] /\
  forallb (fits (header_of (line ["oligo_name"; "Seq"]))) ["p1 GCGC"] = true /\
  ("oligo_name" ∈ header_of (line ["oligo_name"; "Seq"])) /\
  ("dH" ∉ header_of (line ["oligo_name"; "Seq"])) /\
  table_of Sample2.disk "second.tsv" = Ok (loaded "second.tsv") /\
  run lib (Args "nodh.tsv" "second.tsv" 37 DNA_DNA 0.25e-6 50e-3 0 35
             mcconaughy "0.1734" (Some "scores.tsv")) Sample2.disk =
  (Raise (KeyError "dH"),
   World (diag_of Sample2.disk "second.tsv") (Opened [WText header])).
Proof.
  assert (H1 : parse_mvalue "0.1734" = Some (Constant "0.1734"))
    by (vm_compute; reflexivity).
  assert (H2 : Sample2.disk "nodh.tsv" =
               Some [line ["oligo_name"; "Seq"]; "p1 GCGC"]) by reflexivity.
  assert (H3 : ["p1 GCGC"] <> []) by discriminate.
  assert (H4 : forallb (fits (header_of (line ["oligo_name"; "Seq"])))
                 ["p1 GCGC"] = true) by (vm_compute; reflexivity).
  assert (H5 : "oligo_name" ∈ header_of (line ["oligo_name"; "Seq"]))
    by (apply (bool_decide_unpack _); vm_compute; exact I).
  assert (H6 : "dH" ∉ header_of (line ["oligo_name"; "Seq"]))
    by (apply (bool_decide_unpack _); vm_compute; exact I).
  assert (H7 : table_of Sample2.disk "second.tsv" = Ok (loaded "second.tsv"))
    by (vm_compute; reflexivity).
  split; [exact H1 |]. split; [exact H2 |]. split; [exact H3 |].
  split; [exact H4 |]. split; [exact H5 |]. split; [exact H6 |].
  split; [exact H7 |].
  exact (missing_dH_column_raises lib
           (Args "nodh.tsv" "second.tsv" 37 DNA_DNA 0.25e-6 50e-3 0 35
              mcconaughy "0.1734" (Some "scores.tsv")) Sample2.disk _ _ _ _
           H1 H2 H3 H4 H5 H6 H7).
Defined.

End MoreInstances.
